(** * Panic Button Dashboard: the alert lifecycle of [Page]

    A shallow embedding of the React component [Page] (the page of the
    dashboard): its [useState]/[useLocalStorage] values, its refs, the
    callbacks [addLog], [startAlarm], [stopAlarm], [obtainLocation], [arm],
    [disarm], [trigger], [cancelCountdown], [stop], the countdown controller
    effect and the keyboard and button dispatch.

    One event of the browser's event loop is one [step]: the handler runs
    against the values of the last render (its state updates are batched),
    the component re-renders, and the countdown effect is flushed before the
    next event is handled.

    A run starts at a first render: the five hooks kept in [localStorage]
    at whatever values the storage gave them, the countdown and the refs
    null. The vibration effect, the visibility listener and the alert
    message read the state and do not write it; they are left out. *)

From Stdlib Require Import Bool Arith ZArith QArith Qround Qabs List String Lia.
From Stdlib Require Import DecimalString.
Import ListNotations.
Open Scope string_scope.
Open Scope Z_scope.

(** ** Data model *)

(** [LogEntry["type"]]. *)
Inductive LogType : Set :=
  | armed | disarmed | triggered | cancelled | location | note.

Record LogEntry : Set := mkLogEntry {
  id : string;
  type : LogType;
  message : string;
  timestamp : string
}.

(** The value kept under ["coords"]; a JavaScript number that is finite is a
    rational. *)
Record Coords : Set := mkCoords { lat : Q; lng : Q }.

(** What the browser provides: whether [navigator.geolocation] and
    [navigator.wakeLock] exist, and the values that [crypto.randomUUID()] and
    [new Date().toISOString()] return, indexed by the number of entries
    already in the log when they are asked. *)
Record Env : Type := mkEnv {
  geolocation : bool;
  wakeLock : bool;
  randomUUID : nat -> string;
  toISOString : nat -> string
}.

(** The component and the part of the browser it talks to.
    - [isArmed] .. [coords] are the hook values;
    - [audioCtxRef] .. [wakeLockRef] are the refs; an [AudioContext] and the
      oscillator made in it are named by the number of the context;
    - [effectTimer] is the timeout captured by the cleanup of the last run of
      the countdown effect;
    - [timers] are the timeouts that are pending, [oscillators] the
      oscillators that sound, [geoPending] the calls of [getCurrentPosition]
      not yet answered, [wakeRequests] and [wakeReleases] the promises of
      [wakeLock.request] and of [release] not yet settled. *)
Record State : Type := mkState {
  isArmed : bool;
  isTriggered : bool;
  countdown : option Z;
  volume : Q;
  logs : list LogEntry;
  coords : option Coords;
  audioCtxRef : option nat;
  oscillatorRef : option nat;
  gainRef : option Q;
  wakeLockRef : bool;
  effectTimer : option nat;
  timers : list nat;
  nextTimer : nat;
  oscillators : list nat;
  nextAudio : nat;
  geoPending : nat;
  wakeRequests : nat;
  wakeReleases : nat
}.

(** A first render: [isArmed], [isTriggered], [volume], [logs] and [coords]
    are what [useLocalStorage] restored, [countdown] and the refs are null,
    nothing is pending. *)
Definition firstRender (armed0 triggered0 : bool) (volume0 : Q)
    (logs0 : list LogEntry) (coords0 : option Coords) : State :=
  mkState armed0 triggered0 None volume0 logs0 coords0 None None None false
    None [] 0%nat [] 0%nat 0%nat 0%nat 0%nat.

(** The first render on an empty storage: every hook at its initial
    value. *)
Definition init : State :=
  mkState false false None (8 # 10) [] None None None None false
    None [] 0%nat [] 0%nat 0%nat 0%nat 0%nat.

(** ** State setters *)

Definition setIsArmed (v : bool) (s : State) : State :=
  mkState v (isTriggered s) (countdown s) (volume s) (logs s) (coords s)
    (audioCtxRef s) (oscillatorRef s) (gainRef s) (wakeLockRef s)
    (effectTimer s) (timers s) (nextTimer s) (oscillators s) (nextAudio s)
    (geoPending s) (wakeRequests s) (wakeReleases s).

Definition setIsTriggered (v : bool) (s : State) : State :=
  mkState (isArmed s) v (countdown s) (volume s) (logs s) (coords s)
    (audioCtxRef s) (oscillatorRef s) (gainRef s) (wakeLockRef s)
    (effectTimer s) (timers s) (nextTimer s) (oscillators s) (nextAudio s)
    (geoPending s) (wakeRequests s) (wakeReleases s).

Definition setCountdown (v : option Z) (s : State) : State :=
  mkState (isArmed s) (isTriggered s) v (volume s) (logs s) (coords s)
    (audioCtxRef s) (oscillatorRef s) (gainRef s) (wakeLockRef s)
    (effectTimer s) (timers s) (nextTimer s) (oscillators s) (nextAudio s)
    (geoPending s) (wakeRequests s) (wakeReleases s).

Definition setVolume (v : Q) (s : State) : State :=
  mkState (isArmed s) (isTriggered s) (countdown s) v (logs s) (coords s)
    (audioCtxRef s) (oscillatorRef s) (gainRef s) (wakeLockRef s)
    (effectTimer s) (timers s) (nextTimer s) (oscillators s) (nextAudio s)
    (geoPending s) (wakeRequests s) (wakeReleases s).

Definition setLogs (v : list LogEntry) (s : State) : State :=
  mkState (isArmed s) (isTriggered s) (countdown s) (volume s) v (coords s)
    (audioCtxRef s) (oscillatorRef s) (gainRef s) (wakeLockRef s)
    (effectTimer s) (timers s) (nextTimer s) (oscillators s) (nextAudio s)
    (geoPending s) (wakeRequests s) (wakeReleases s).

Definition setCoords (v : option Coords) (s : State) : State :=
  mkState (isArmed s) (isTriggered s) (countdown s) (volume s) (logs s) v
    (audioCtxRef s) (oscillatorRef s) (gainRef s) (wakeLockRef s)
    (effectTimer s) (timers s) (nextTimer s) (oscillators s) (nextAudio s)
    (geoPending s) (wakeRequests s) (wakeReleases s).

Definition setAudioCtxRef (v : option nat) (s : State) : State :=
  mkState (isArmed s) (isTriggered s) (countdown s) (volume s) (logs s)
    (coords s) v (oscillatorRef s) (gainRef s) (wakeLockRef s)
    (effectTimer s) (timers s) (nextTimer s) (oscillators s) (nextAudio s)
    (geoPending s) (wakeRequests s) (wakeReleases s).

Definition setOscillatorRef (v : option nat) (s : State) : State :=
  mkState (isArmed s) (isTriggered s) (countdown s) (volume s) (logs s)
    (coords s) (audioCtxRef s) v (gainRef s) (wakeLockRef s) (effectTimer s)
    (timers s) (nextTimer s) (oscillators s) (nextAudio s) (geoPending s)
    (wakeRequests s) (wakeReleases s).

Definition setGainRef (v : option Q) (s : State) : State :=
  mkState (isArmed s) (isTriggered s) (countdown s) (volume s) (logs s)
    (coords s) (audioCtxRef s) (oscillatorRef s) v (wakeLockRef s)
    (effectTimer s) (timers s) (nextTimer s) (oscillators s) (nextAudio s)
    (geoPending s) (wakeRequests s) (wakeReleases s).

Definition setWakeLockRef (v : bool) (s : State) : State :=
  mkState (isArmed s) (isTriggered s) (countdown s) (volume s) (logs s)
    (coords s) (audioCtxRef s) (oscillatorRef s) (gainRef s) v
    (effectTimer s) (timers s) (nextTimer s) (oscillators s) (nextAudio s)
    (geoPending s) (wakeRequests s) (wakeReleases s).

Definition setEffectTimer (v : option nat) (s : State) : State :=
  mkState (isArmed s) (isTriggered s) (countdown s) (volume s) (logs s)
    (coords s) (audioCtxRef s) (oscillatorRef s) (gainRef s) (wakeLockRef s)
    v (timers s) (nextTimer s) (oscillators s) (nextAudio s) (geoPending s)
    (wakeRequests s) (wakeReleases s).

Definition setTimers (v : list nat) (s : State) : State :=
  mkState (isArmed s) (isTriggered s) (countdown s) (volume s) (logs s)
    (coords s) (audioCtxRef s) (oscillatorRef s) (gainRef s) (wakeLockRef s)
    (effectTimer s) v (nextTimer s) (oscillators s) (nextAudio s)
    (geoPending s) (wakeRequests s) (wakeReleases s).

Definition setNextTimer (v : nat) (s : State) : State :=
  mkState (isArmed s) (isTriggered s) (countdown s) (volume s) (logs s)
    (coords s) (audioCtxRef s) (oscillatorRef s) (gainRef s) (wakeLockRef s)
    (effectTimer s) (timers s) v (oscillators s) (nextAudio s)
    (geoPending s) (wakeRequests s) (wakeReleases s).

Definition setOscillators (v : list nat) (s : State) : State :=
  mkState (isArmed s) (isTriggered s) (countdown s) (volume s) (logs s)
    (coords s) (audioCtxRef s) (oscillatorRef s) (gainRef s) (wakeLockRef s)
    (effectTimer s) (timers s) (nextTimer s) v (nextAudio s) (geoPending s)
    (wakeRequests s) (wakeReleases s).

Definition setNextAudio (v : nat) (s : State) : State :=
  mkState (isArmed s) (isTriggered s) (countdown s) (volume s) (logs s)
    (coords s) (audioCtxRef s) (oscillatorRef s) (gainRef s) (wakeLockRef s)
    (effectTimer s) (timers s) (nextTimer s) (oscillators s) v
    (geoPending s) (wakeRequests s) (wakeReleases s).

Definition setGeoPending (v : nat) (s : State) : State :=
  mkState (isArmed s) (isTriggered s) (countdown s) (volume s) (logs s)
    (coords s) (audioCtxRef s) (oscillatorRef s) (gainRef s) (wakeLockRef s)
    (effectTimer s) (timers s) (nextTimer s) (oscillators s) (nextAudio s) v
    (wakeRequests s) (wakeReleases s).

Definition setWakeRequests (v : nat) (s : State) : State :=
  mkState (isArmed s) (isTriggered s) (countdown s) (volume s) (logs s)
    (coords s) (audioCtxRef s) (oscillatorRef s) (gainRef s) (wakeLockRef s)
    (effectTimer s) (timers s) (nextTimer s) (oscillators s) (nextAudio s)
    (geoPending s) v (wakeReleases s).

Definition setWakeReleases (v : nat) (s : State) : State :=
  mkState (isArmed s) (isTriggered s) (countdown s) (volume s) (logs s)
    (coords s) (audioCtxRef s) (oscillatorRef s) (gainRef s) (wakeLockRef s)
    (effectTimer s) (timers s) (nextTimer s) (oscillators s) (nextAudio s)
    (geoPending s) (wakeRequests s) v.

(** Statements of a handler, read top to bottom as in the source. *)
Notation "s |> f" := (f s) (at level 45, left associativity, only parsing).

(** ** Number.prototype.toFixed(5) *)

Fixpoint zeros (k : nat) : string :=
  match k with
  | O => ""
  | S k' => "0" ++ zeros k'
  end.

(** [String.prototype.padStart(k, "0")]. *)
Definition padStart (k : nat) (d : string) : string :=
  zeros (k - String.length d) ++ d.

Definition digits (n : Z) : string :=
  NilZero.string_of_uint (N.to_uint (Z.to_N n)).

(** The integer [n] nearest to [|x| * 10^5], the larger one on a tie, printed
    with the point before its last five digits and the sign of [x]. *)
Definition toFixed5 (x : Q) : string :=
  let n := Qfloor (Qabs x * 100000 + (1 # 2)) in
  (if Qle_bool 0 x then "" else "-")
    ++ digits (n / 100000) ++ "." ++ padStart 5 (digits (n mod 100000)).

(** ** Event log *)

Definition addLog (env : Env) (ty : LogType) (msg : string) (s : State) : State :=
  let prev := logs s in
  setLogs ({| id := randomUUID env (List.length prev);
              timestamp := toISOString env (List.length prev);
              type := ty;
              message := msg |} :: prev) s.

(** ** Wake lock *)

(** [requestWakeLock] up to its [await]: the request is issued, the ref is
    written when the promise resolves ([WakeGranted]). *)
Definition requestWakeLock (env : Env) (s : State) : State :=
  if wakeLock env && negb (wakeLockRef s)
  then setWakeRequests (S (wakeRequests s)) s
  else s.

(** [releaseWakeLock] up to its [await]; the ref is cleared when [release]
    resolves ([WakeReleased]). *)
Definition releaseWakeLock (s : State) : State :=
  if wakeLockRef s then setWakeReleases (S (wakeReleases s)) s else s.

(** ** Alarm output *)

(** The constructor [AudioContextCtor] is taken to exist, as its annotation
    [typeof AudioContext] says. *)
Definition startAlarm (env : Env) (s : State) : State :=
  match audioCtxRef s with
  | Some _ => s
  | None =>
      let ctx := nextAudio s in
      s |> setNextAudio (S ctx)
        |> setOscillators (ctx :: oscillators s)
        |> setAudioCtxRef (Some ctx)
        |> setOscillatorRef (Some ctx)
        |> setGainRef (Some (volume s))
        |> requestWakeLock env
  end.

(** [oscillatorRef.current?.stop()] *)
Definition stopOscillator (o : option nat) (s : State) : State :=
  match o with
  | Some h => setOscillators (remove Nat.eq_dec h (oscillators s)) s
  | None => s
  end.

(** Closing the audio context changes nothing the page reads again; a
    failure of [stop] or [close] is caught and ignored. *)
Definition stopAlarm (s : State) : State :=
  s |> stopOscillator (oscillatorRef s)
    |> setOscillatorRef None
    |> setAudioCtxRef None
    |> setGainRef None
    |> releaseWakeLock.

(** ** Location *)

Definition obtainLocation (env : Env) (s : State) : State :=
  if negb (geolocation env) then s
  else setGeoPending (S (geoPending s)) s.

(** The success callback of [getCurrentPosition]. *)
Definition locationFound (env : Env) (c : Coords) (s : State) : State :=
  s |> setCoords (Some c)
    |> addLog env location
         ("Location updated (" ++ toFixed5 (lat c) ++ ", "
            ++ toFixed5 (lng c) ++ ")").

(** The error callback of [getCurrentPosition]. *)
Definition locationDenied (env : Env) (s : State) : State :=
  addLog env location "Location access denied" s.

(** ** The five intents *)

Definition arm (env : Env) (s : State) : State :=
  s |> setIsArmed true
    |> addLog env armed "System armed"
    |> obtainLocation env.

(** [isTriggered] is the value of the render the callback was made in, the
    state the handler starts from. *)
Definition disarm (env : Env) (s : State) : State :=
  let s1 := s |> setIsArmed false
              |> addLog env disarmed "System disarmed"
              |> setCountdown None in
  if isTriggered s
  then s1 |> setIsTriggered false
          |> stopAlarm
          |> addLog env cancelled "Alarm cancelled"
  else s1.

Definition trigger (env : Env) (s : State) : State :=
  (if negb (isArmed s) then arm env s else s)
    |> setCountdown (Some 3)
    |> addLog env triggered "Panic sequence initiated (3s)".

Definition cancelCountdown (env : Env) (s : State) : State :=
  s |> setCountdown None
    |> addLog env cancelled "Countdown cancelled".

Definition stop (env : Env) (s : State) : State :=
  s |> setIsTriggered false
    |> stopAlarm
    |> addLog env cancelled "Alarm stopped".

(** [copyMessage], and [shareAlert] without [navigator.share], once the
    clipboard has been written. *)
Definition copied (env : Env) (s : State) : State :=
  addLog env note "Alert message copied to clipboard" s.

(** ** The countdown controller *)

(** [setTimeout(..., 1000)]; the timeout it returns is [nextTimer s]. *)
Definition setTimeout (s : State) : State :=
  s |> setNextTimer (S (nextTimer s))
    |> setTimers (nextTimer s :: timers s).

Definition clearTimeout (t : nat) (s : State) : State :=
  setTimers (remove Nat.eq_dec t (timers s)) s.

(** The function the effect returned on its last run. *)
Definition cleanup (s : State) : State :=
  match effectTimer s with
  | Some t => s |> clearTimeout t |> setEffectTimer None
  | None => s
  end.

(** The body of the effect, run in the render [s]. *)
Definition countdownEffect (env : Env) (s : State) : State :=
  match countdown s with
  | None => s
  | Some c =>
      if c <=? 0
      then s |> setIsTriggered true
             |> setCountdown None
             |> startAlarm env
             |> obtainLocation env
      else s |> setTimeout |> setEffectTimer (Some (nextTimer s))
  end.

Definition eqCountdown (a b : option Z) : bool :=
  match a, b with
  | None, None => true
  | Some x, Some y => x =? y
  | _, _ => false
  end.

(** The dependencies of the effect that can change are [countdown] and
    [startAlarm], which is made anew when [volume] changes. *)
Definition depsChanged (prev s : State) : bool :=
  negb (eqCountdown (countdown prev) (countdown s))
  || negb (Qeq_bool (volume prev) (volume s)).

Definition runEffect (env : Env) (prev s : State) : State :=
  if depsChanged prev s then countdownEffect env (cleanup s) else s.

(** Re-render after a handler that started in the render [prev]: the effect
    runs if its dependencies changed, and once more if it changed them
    itself. *)
Definition commit (env : Env) (prev s : State) : State :=
  let s1 := runEffect env prev s in
  runEffect env s s1.

(** The callback of the timeout: [setCountdown((c) => (c ?? 0) - 1)]. *)
Definition tick (s : State) : State :=
  setCountdown (Some (match countdown s with Some c => c | None => 0 end - 1)) s.

(** ** Events *)

Inductive Intent : Set := Arm | Disarm | Trigger | CancelCountdown | Stop.

Definition intent (env : Env) (i : Intent) : State -> State :=
  match i with
  | Arm => arm env
  | Disarm => disarm env
  | Trigger => trigger env
  | CancelCountdown => cancelCountdown env
  | Stop => stop env
  end.

Inductive Event : Type :=
  | Call (i : Intent)        (* the callback itself is invoked *)
  | ClickToggle              (* the Arm / Disarm button *)
  | ClickMain                (* the round button *)
  | KeyEscape
  | KeySpace
  | ClickRefresh             (* Refresh Location *)
  | Copied                   (* the clipboard write resolved *)
  | ChangeVolume (v : Q)
  | TimerFire (t : nat)      (* the timeout [t] elapses *)
  | GeoSuccess (c : Coords)
  | GeoError
  | WakeGranted
  | WakeRejected
  | WakeReleased.

(** [onClick={isArmed ? disarm : arm}] *)
Definition onToggle (env : Env) (s : State) : State :=
  if isArmed s then disarm env s else arm env s.

(** [onClick={countdown !== null ? cancelCountdown : isTriggered ? stop : trigger}] *)
Definition onMain (env : Env) (s : State) : State :=
  match countdown s with
  | Some _ => cancelCountdown env s
  | None => if isTriggered s then stop env s else trigger env s
  end.

(** [onKey] for Escape; both tests read the render the listener was made in. *)
Definition onEscape (env : Env) (s : State) : State :=
  let s1 := match countdown s with
            | Some _ => cancelCountdown env s
            | None => s
            end in
  if isTriggered s then stop env s1 else s1.

(** [onKey] for Space. *)
Definition onSpace (env : Env) (s : State) : State :=
  trigger env s.

(** What the event does before the re-render. A timeout that is not pending
    and a callback nobody waits for do not happen. *)
Definition handle (env : Env) (e : Event) (s : State) : State :=
  match e with
  | Call i => intent env i s
  | ClickToggle => onToggle env s
  | ClickMain => onMain env s
  | KeyEscape => onEscape env s
  | KeySpace => onSpace env s
  | ClickRefresh => obtainLocation env s
  | Copied => copied env s
  | ChangeVolume v => setVolume v s
  | TimerFire t =>
      if existsb (Nat.eqb t) (timers s)
      then s |> setTimers (remove Nat.eq_dec t (timers s)) |> tick
      else s
  | GeoSuccess c =>
      match geoPending s with
      | S n => s |> setGeoPending n |> locationFound env c
      | O => s
      end
  | GeoError =>
      match geoPending s with
      | S n => s |> setGeoPending n |> locationDenied env
      | O => s
      end
  | WakeGranted =>
      match wakeRequests s with
      | S n => s |> setWakeRequests n |> setWakeLockRef true
      | O => s
      end
  | WakeRejected =>
      match wakeRequests s with
      | S n => setWakeRequests n s
      | O => s
      end
  | WakeReleased =>
      match wakeReleases s with
      | S n => s |> setWakeReleases n |> setWakeLockRef false
      | O => s
      end
  end.

Definition step (env : Env) (s : State) (e : Event) : State :=
  commit env s (handle env e s).

Definition run (env : Env) (s : State) (es : list Event) : State :=
  fold_left (step env) es s.

(** The states the runs reach, from any first render. *)
Definition reachable (env : Env) (s : State) : Prop :=
  exists armed0 triggered0 volume0 logs0 coords0 es,
    s = run env (firstRender armed0 triggered0 volume0 logs0 coords0) es.

(** ** The mode the page shows *)

Inductive AlertMode : Set := Disarmed | Armed | CountingDown | Triggered.

(** The status line, [isTriggered ? "ALARM" : isArmed ? "Armed" : "Disarmed"],
    with the countdown face of the round button told apart from the panic
    face. *)
Definition mode (s : State) : AlertMode :=
  if isTriggered s then Triggered
  else match countdown s with
       | Some _ => CountingDown
       | None => if isArmed s then Armed else Disarmed
       end.

(** A browser with both APIs, naming the [n]-th id [idn] and the [n]-th
    instant [tn]. *)
Definition env0 : Env :=
  mkEnv true true (fun n => "id" ++ digits (Z.of_nat n))
    (fun n => "t" ++ digits (Z.of_nat n)).

(** ** What holds in every state a run reaches *)

Record Inv (s : State) : Prop := mkInv {
  inv_armed : countdown s <> None -> isArmed s = true;
  inv_audio : audioCtxRef s = oscillatorRef s /\
              oscillators s = match oscillatorRef s with
                              | Some h => [h]
                              | None => []
                              end;
  inv_silent : isTriggered s = false -> audioCtxRef s = None;
  inv_timer : match countdown s with
              | Some c => 0 < c <= 3 /\
                          exists t, effectTimer s = Some t /\ timers s = [t]
              | None => effectTimer s = None /\ timers s = []
              end
}.

(** What the alarm and the location request leave alone. *)
Definition sameHooks (s s' : State) : Prop :=
  isArmed s' = isArmed s /\ isTriggered s' = isTriggered s /\
  countdown s' = countdown s /\ volume s' = volume s /\
  logs s' = logs s /\ coords s' = coords s /\
  effectTimer s' = effectTimer s /\ timers s' = timers s /\
  nextTimer s' = nextTimer s.

(** What a handler that started in [s] leaves in [h]: the invariant, except
    that the countdown may have reached 0 and that the timeout of the effect
    may have fired. *)
Record PreInv (s h : State) : Prop := mkPreInv {
  pre_armed : countdown h <> None -> isArmed h = true;
  pre_audio : audioCtxRef h = oscillatorRef h /\
              oscillators h = match oscillatorRef h with
                              | Some o => [o]
                              | None => []
                              end;
  pre_silent : isTriggered h = false -> audioCtxRef h = None;
  pre_range : forall c, countdown h = Some c -> 0 <= c <= 3;
  pre_timers : timers h = [] \/
               exists t, effectTimer h = Some t /\ timers h = [t];
  pre_same : countdown h = countdown s ->
             effectTimer h = effectTimer s /\ timers h = timers s
}.

(** *** Counting the transitions to Triggered *)

Definition isMode (m : AlertMode) (s : State) : bool :=
  match mode s, m with
  | Disarmed, Disarmed | Armed, Armed
  | CountingDown, CountingDown | Triggered, Triggered => true
  | _, _ => false
  end.

(** How often the run of [es] from [s] goes from a mode that is not
    Triggered to Triggered. *)
Fixpoint entersTriggered (env : Env) (s : State) (es : list Event) : nat :=
  match es with
  | [] => 0
  | e :: es' =>
      (if negb (isMode Triggered s) && isMode Triggered (step env s e)
       then 1 else 0)
      + entersTriggered env (step env s e) es'
  end%nat.

(** The intents of the scenario: trigger, cancel, trigger again. *)
Definition retrigger : list Event :=
  [Call Trigger; Call CancelCountdown; Call Trigger].

(** *** Runs that keep [trigger] out of the mode Triggered *)

(** The events that call [trigger()] whatever the mode. *)
Definition callsTrigger (e : Event) : bool :=
  match e with
  | Call Trigger | KeySpace => true
  | _ => false
  end.

(** No event of the run calls [trigger()] while the alarm is on. *)
Fixpoint triggerGated (env : Env) (s : State) (es : list Event) : bool :=
  match es with
  | [] => true
  | e :: es' =>
      (if callsTrigger e then negb (isTriggered s) else true)
      && triggerGated env (step env s e) es'
  end.

(** No countdown while the alarm is on. *)
Definition exclusive (s : State) : Prop :=
  isTriggered s = true -> countdown s = None.

(** ** useLocalStorage *)

(** [window.localStorage]: [getItem] answers [null] for a key that was never
    set. *)
Definition Storage : Type := string -> option string.

Definition getItem (st : Storage) (key : string) : option string := st key.

Definition setItem (key value : string) (st : Storage) : Storage :=
  fun k => if String.eqb k key then Some value else st k.

(** The initializer of the hook's [useState], in the browser (where
    [window] is defined). [parse] is [JSON.parse] followed by the cast to
    [T]; it answers [None] where [JSON.parse] throws. An item that is [null]
    or the empty string is falsy. *)
Definition useLocalStorageInit {T : Type} (parse : string -> option T)
    (st : Storage) (key : string) (initialValue : T) : T :=
  match getItem st key with
  | Some item =>
      if String.eqb item "" then initialValue
      else match parse item with
           | Some v => v
           | None => initialValue
           end
  | None => initialValue
  end.

(** The effect of the hook, run when [key] or [value] changed, where
    [setItem] does not throw. *)
Definition useLocalStorageEffect {T : Type} (stringify : T -> string)
    (key : string) (value : T) (st : Storage) : Storage :=
  setItem key (stringify value) st.

(** [JSON.stringify] of a boolean, and [JSON.parse] on the two strings it
    writes; any other item is taken not to parse. *)
Definition stringifyBool (b : bool) : string :=
  if b then "true" else "false".

Definition parseBool (item : string) : option bool :=
  if String.eqb item "true" then Some true
  else if String.eqb item "false" then Some false
  else None.

(** ** Flags that go together *)

(** The alarm is triggered only with the armed flag set. *)
Definition triggeredArmed (s : State) : Prop :=
  isTriggered s = true -> isArmed s = true.

(** ** The delay before the alarm *)

(** The timeouts that have to elapse before the alarm can be triggered: as
    many as the countdown counts, three where no countdown runs. *)
Definition ticksToAlarm (s : State) : nat :=
  if isTriggered s then 0%nat
  else match countdown s with
       | Some c => Z.to_nat c
       | None => 3%nat
       end.

Definition isFire (e : Event) : bool :=
  match e with
  | TimerFire _ => true
  | _ => false
  end.

(** The timeouts among the events. *)
Definition countFires (es : list Event) : nat :=
  List.length (filter isFire es).

(** ** The wake lock without support *)

Definition noWakeLock (s : State) : Prop :=
  wakeLockRef s = false /\ wakeRequests s = 0%nat /\ wakeReleases s = 0%nat.

(** The events that leave the log alone. *)
Definition silent (e : Event) : bool :=
  match e with
  | TimerFire _ | ChangeVolume _ | ClickRefresh
  | WakeGranted | WakeRejected | WakeReleased => true
  | _ => false
  end.

(** ** The pending timeout elapsing *)

(** The timeout that is pending, if there is one, elapses. *)
Definition firePending (env : Env) (s : State) : State :=
  match timers s with
  | t :: _ => step env s (TimerFire t)
  | [] => s
  end.

(** * Proofs *)

Lemma Qeq_bool_same (v : Q) : Qeq_bool v v = true.
Proof. apply Qeq_bool_iff. reflexivity. Qed.

Lemma eqCountdown_same (c : option Z) : eqCountdown c c = true.
Proof. destruct c; simpl; [apply Z.eqb_refl | reflexivity]. Qed.

Lemma remove_single (t : nat) : remove Nat.eq_dec t [t] = [].
Proof. simpl. destruct (Nat.eq_dec t t); [reflexivity | contradiction]. Qed.

Lemma firstRender_Inv (a t : bool) (v : Q) (l : list LogEntry)
    (c : option Coords) : Inv (firstRender a t v l c).
Proof. split; simpl; auto. Qed.

Lemma init_Inv : Inv init.
Proof. apply (firstRender_Inv false false (8 # 10) [] None). Qed.

(** *** The model at work *)

Example toFixed5_rounds : toFixed5 (12345678 # 1000000) = "12.34568".
Proof. reflexivity. Qed.

Example toFixed5_tie : toFixed5 (5 # 1000000) = "0.00001".
Proof. reflexivity. Qed.

Example toFixed5_negative : toFixed5 (-3725 # 100) = "-37.25000".
Proof. reflexivity. Qed.

(** [arm], [trigger], three ticks: the alarm sounds, once; the denial of the
    location request made on the way goes to the head of the log. *)
Example scenario_countdown_runs_out :
  mode (run env0 init [Call Arm; Call Trigger; TimerFire 0; TimerFire 1;
                       TimerFire 2]) = Triggered /\
  oscillators (run env0 init [Call Arm; Call Trigger; TimerFire 0;
                              TimerFire 1; TimerFire 2]) = [0%nat] /\
  map type (logs (run env0 init [Call Arm; Call Trigger; TimerFire 0;
                                 TimerFire 1; TimerFire 2; GeoError]))
    = [location; triggered; armed].
Proof. vm_compute. repeat split; reflexivity. Qed.

(** [trigger], [cancelCountdown]: back to Armed, nothing pending, no sound. *)
Example scenario_cancelled :
  mode (run env0 init [Call Trigger; Call CancelCountdown]) = Armed /\
  countdown (run env0 init [Call Trigger; Call CancelCountdown]) = None /\
  timers (run env0 init [Call Trigger; Call CancelCountdown]) = [] /\
  nextAudio (run env0 init [Call Trigger; Call CancelCountdown]) = 0%nat.
Proof. vm_compute. repeat split; reflexivity. Qed.

(** [arm], [trigger], [disarm] before the first tick: Disarmed, and the
    timeout of the countdown, were it to elapse, finds nothing to do. *)
Example scenario_disarmed_in_time :
  mode (run env0 init [Call Arm; Call Trigger; Call Disarm]) = Disarmed /\
  countdown (run env0 init [Call Arm; Call Trigger; Call Disarm]) = None /\
  run env0 init [Call Arm; Call Trigger; Call Disarm; TimerFire 0]
    = run env0 init [Call Arm; Call Trigger; Call Disarm] /\
  nextAudio (run env0 init [Call Arm; Call Trigger; Call Disarm]) = 0%nat.
Proof. vm_compute. repeat split; reflexivity. Qed.

(** *** The conditionals of the small callbacks, moved into the field *)

Lemma obtainLocation_eq (env : Env) (s : State) :
  obtainLocation env s =
  setGeoPending (if geolocation env then S (geoPending s) else geoPending s) s.
Proof. unfold obtainLocation. destruct (geolocation env), s; reflexivity. Qed.

Lemma requestWakeLock_eq (env : Env) (s : State) :
  requestWakeLock env s =
  setWakeRequests (if wakeLock env && negb (wakeLockRef s)
                   then S (wakeRequests s) else wakeRequests s) s.
Proof.
  unfold requestWakeLock.
  destruct (wakeLock env && negb (wakeLockRef s)), s; reflexivity.
Qed.

Lemma releaseWakeLock_eq (s : State) :
  releaseWakeLock s =
  setWakeReleases (if wakeLockRef s then S (wakeReleases s) else wakeReleases s) s.
Proof. unfold releaseWakeLock. destruct (wakeLockRef s) eqn:E, s; simpl in *; subst; reflexivity. Qed.

Lemma stopOscillator_eq (o : option nat) (s : State) :
  stopOscillator o s =
  setOscillators (match o with
                  | Some h => remove Nat.eq_dec h (oscillators s)
                  | None => oscillators s
                  end) s.
Proof. unfold stopOscillator. destruct o, s; reflexivity. Qed.

Lemma startAlarm_eq (env : Env) (s : State) :
  startAlarm env s =
  match audioCtxRef s with
  | Some _ => s
  | None =>
      s |> setNextAudio (S (nextAudio s))
        |> setOscillators (nextAudio s :: oscillators s)
        |> setAudioCtxRef (Some (nextAudio s))
        |> setOscillatorRef (Some (nextAudio s))
        |> setGainRef (Some (volume s))
        |> setWakeRequests (if wakeLock env && negb (wakeLockRef s)
                            then S (wakeRequests s) else wakeRequests s)
  end.
Proof.
  unfold startAlarm. destruct (audioCtxRef s); [reflexivity |].
  rewrite requestWakeLock_eq. reflexivity.
Qed.

Lemma cleanup_eq (s : State) :
  cleanup s =
  s |> setTimers (match effectTimer s with
                  | Some t => remove Nat.eq_dec t (timers s)
                  | None => timers s
                  end)
    |> setEffectTimer None.
Proof. unfold cleanup, clearTimeout. destruct s as [? ? ? ? ? ? ? ? ? ? [] ? ? ? ? ? ? ?]; reflexivity. Qed.

Lemma depsChanged_same (s : State) : depsChanged s s = false.
Proof. unfold depsChanged. rewrite eqCountdown_same, Qeq_bool_same. reflexivity. Qed.

(** *** What the alarm and the location request leave alone *)

Lemma obtainLocation_hooks (env : Env) (s : State) :
  sameHooks s (obtainLocation env s).
Proof. rewrite obtainLocation_eq. repeat split. Qed.

Lemma startAlarm_hooks (env : Env) (s : State) :
  sameHooks s (startAlarm env s).
Proof. rewrite startAlarm_eq. destruct (audioCtxRef s); repeat split. Qed.

Lemma stopAlarm_hooks (s : State) : sameHooks s (stopAlarm s).
Proof.
  unfold stopAlarm. rewrite releaseWakeLock_eq, stopOscillator_eq.
  repeat split.
Qed.

(** The three ways through the body of the effect. *)
Lemma countdownEffect_cases (env : Env) (s : State) :
  (countdown s = None /\ countdownEffect env s = s) \/
  (exists c, countdown s = Some c /\ c <= 0 /\
     countdownEffect env s =
     obtainLocation env
       (startAlarm env (setCountdown None (setIsTriggered true s)))) \/
  (exists c, countdown s = Some c /\ 0 < c /\
     countdownEffect env s =
     setEffectTimer (Some (nextTimer s)) (setTimeout s)).
Proof.
  unfold countdownEffect. destruct (countdown s) as [c|]; [| now left].
  right. destruct (Z.leb_spec c 0); [left | right]; exists c; auto.
Qed.

(** [commit] in one piece: the second run of the effect finds nothing to
    do. *)
Lemma commit_spec (env : Env) (prev s : State) :
  commit env prev s =
  if depsChanged prev s then countdownEffect env (cleanup s) else s.
Proof.
  unfold commit, runEffect.
  destruct (depsChanged prev s); [| now rewrite depsChanged_same].
  assert (Hc : countdown (cleanup s) = countdown s)
    by (rewrite cleanup_eq; reflexivity).
  assert (Hv : volume (cleanup s) = volume s)
    by (rewrite cleanup_eq; reflexivity).
  assert (He : effectTimer (cleanup s) = None)
    by (rewrite cleanup_eq; reflexivity).
  revert Hc Hv He. generalize (cleanup s) as s'. intros s' Hc Hv He.
  destruct (countdownEffect_cases env s')
    as [[H1 ->] | [(c & H1 & H2 & ->) | (c & H1 & H2 & ->)]].
  - unfold depsChanged. now rewrite Hc, Hv, eqCountdown_same, Qeq_bool_same.
  - set (y := setCountdown None (setIsTriggered true s')).
    destruct (startAlarm_hooks env y) as (_ & _ & Ha & _ & _ & _ & Hb & _).
    destruct (obtainLocation_hooks env (startAlarm env y))
      as (_ & _ & Ha' & _ & _ & _ & Hb' & _).
    set (x := obtainLocation env (startAlarm env y)) in *.
    assert (Hx : countdown x = None) by (rewrite Ha', Ha; reflexivity).
    assert (Hx' : effectTimer x = None) by (rewrite Hb', Hb; exact He).
    unfold depsChanged, countdownEffect, cleanup.
    rewrite Hx, Hx', <- Hc, H1. simpl. now rewrite Hx.
  - unfold depsChanged, setTimeout. simpl.
    now rewrite Hc, Hv, eqCountdown_same, Qeq_bool_same.
Qed.

(** *** Between the handler and the re-render *)

Lemma eqCountdown_eq (a b : option Z) : eqCountdown a b = true -> a = b.
Proof.
  destruct a, b; simpl; intro H; try discriminate; auto.
  apply Z.eqb_eq in H. now subst.
Qed.

Lemma depsChanged_false (s h : State) :
  depsChanged s h = false -> countdown h = countdown s.
Proof.
  unfold depsChanged. intro H. apply orb_false_elim in H as [H _].
  apply negb_false_iff, eqCountdown_eq in H. auto.
Qed.

Lemma commit_Inv (env : Env) (s h : State) :
  Inv s -> PreInv s h -> Inv (commit env s h).
Proof.
  intros [I1 I2 I3 I4] [P1 P2 P3 P4 P5 P6].
  rewrite commit_spec. destruct (depsChanged s h) eqn:Hd.
  - assert (Ht : timers (cleanup h) = []).
    { rewrite cleanup_eq. simpl. destruct P5 as [E | (t & E1 & E2)].
      - rewrite E. now destruct (effectTimer h).
      - rewrite E1, E2. apply remove_single. }
    assert (He : effectTimer (cleanup h) = None)
      by (rewrite cleanup_eq; reflexivity).
    assert (Hf : isArmed (cleanup h) = isArmed h /\
                 isTriggered (cleanup h) = isTriggered h /\
                 countdown (cleanup h) = countdown h /\
                 audioCtxRef (cleanup h) = audioCtxRef h /\
                 oscillatorRef (cleanup h) = oscillatorRef h /\
                 oscillators (cleanup h) = oscillators h)
      by (rewrite cleanup_eq; repeat split).
    revert Ht He Hf. generalize (cleanup h) as k.
    intros k Ht He (F1 & F2 & F3 & F4 & F5 & F6).
    rewrite <- F1, <- F3 in P1. rewrite <- F4, <- F5, <- F6 in P2.
    rewrite <- F2, <- F4 in P3. rewrite <- F3 in P4.
    clear F1 F2 F3 F4 F5 F6 P5 P6 Hd I1 I2 I3 I4.
    destruct (countdownEffect_cases env k)
      as [[H1 ->] | [(c & H1 & H2 & ->) | (c & H1 & H2 & ->)]].
    + split; auto. now rewrite H1.
    + rewrite obtainLocation_eq, startAlarm_eq. simpl.
      destruct P2 as [P2 P2'].
      destruct (audioCtxRef k) as [ctx|] eqn:Hctx; split; simpl;
        rewrite ?Hctx; auto; try discriminate;
        try (intro H; now elim H).
      rewrite P2', <- P2. auto.
    + unfold setTimeout. split; simpl; auto.
      rewrite H1. split; [specialize (P4 c H1); lia |].
      exists (nextTimer k). now rewrite Ht.
  - apply depsChanged_false in Hd. destruct (P6 Hd) as [E1 E2].
    split; auto. rewrite Hd, E1, E2. exact I4.
Qed.

Ltac expose :=
  unfold intent, onToggle, onMain, onEscape, onSpace, trigger, arm, disarm,
    cancelCountdown, stop, copied, locationFound, locationDenied, stopAlarm,
    tick, addLog;
  rewrite ?obtainLocation_eq, ?releaseWakeLock_eq, ?stopOscillator_eq.

Ltac fin :=
  simpl; intros;
  repeat match goal with
  | H : Some _ = Some _ |- _ => injection H as H
  | H : _ /\ _ |- _ => destruct H
  | |- _ /\ _ => split
  end;
  subst; try discriminate; try congruence; try lia; auto;
  try (left; reflexivity); try (right; eexists; split; reflexivity).

Lemma handle_PreInv (env : Env) (s : State) (e : Event) :
  Inv s -> PreInv s (handle env e s).
Proof.
  intros [I1 [A1 A2] I3 I4].
  destruct (isArmed s) eqn:Ea, (isTriggered s) eqn:Et,
    (countdown s) as [c|] eqn:Ec, (oscillatorRef s) as [o|] eqn:Eo.
  all: try (specialize (I1 ltac:(discriminate)); discriminate).
  all: try (rewrite A1 in I3; specialize (I3 eq_refl); discriminate).
  all: match type of I4 with
       | _ /\ (exists _, _) => destruct I4 as [Hc (t0 & Ht1 & Ht2)]
       | _ => destruct I4 as [Ht1 Ht2]
       end.
  all: destruct e as [[]| | | | | | | | | | | | |]; simpl.
  all: expose; rewrite ?Ea, ?Et, ?Ec, ?Ht2; simpl existsb.
  all: repeat match goal with
       | |- context [Nat.eqb ?t ?t0] =>
           destruct (Nat.eqb_spec t t0) as [->|]; simpl orb; cbv iota
       | |- PreInv _ (match ?x with _ => _ end) => destruct x eqn:?
       end.
  all: rewrite ?remove_single; simpl.
  all: rewrite ?obtainLocation_eq, ?releaseWakeLock_eq, ?stopOscillator_eq; simpl.
  all: try (split; simpl; rewrite ?Ea, ?Et, ?Ec, ?Eo, ?A1, ?A2, ?Ht1, ?Ht2, ?remove_single; fin).
Qed.

Theorem step_Inv (env : Env) (s : State) (e : Event) :
  Inv s -> Inv (step env s e).
Proof.
  intro H. apply commit_Inv; [exact H | now apply handle_PreInv].
Qed.

Lemma run_Inv (env : Env) (es : list Event) (s : State) :
  Inv s -> Inv (run env s es).
Proof.
  revert s. induction es as [|e es IH]; intros s H; simpl; auto.
  apply IH, step_Inv, H.
Qed.

Lemma reachable_Inv (env : Env) (s : State) : reachable env s -> Inv s.
Proof.
  intros (a & t & v & l & c & es & ->). apply run_Inv, firstRender_Inv.
Qed.

Lemma reachable_init (env : Env) (es : list Event) :
  reachable env (run env init es).
Proof. exists false, false, (8 # 10), [], None, es. reflexivity. Qed.

(** ** The event log *)

Lemma commit_hooks (env : Env) (prev s : State) :
  isArmed (commit env prev s) = isArmed s /\
  logs (commit env prev s) = logs s /\
  coords (commit env prev s) = coords s /\
  volume (commit env prev s) = volume s.
Proof.
  rewrite commit_spec. destruct (depsChanged prev s); [| tauto].
  assert (Hk : isArmed (cleanup s) = isArmed s /\ logs (cleanup s) = logs s /\
               coords (cleanup s) = coords s /\ volume (cleanup s) = volume s)
    by (rewrite cleanup_eq; repeat split).
  revert Hk. generalize (cleanup s) as k. intros k (K1 & K2 & K3 & K4).
  destruct (countdownEffect_cases env k)
    as [[_ ->] | [(c & _ & _ & ->) | (c & _ & _ & ->)]]; auto.
  set (y := setCountdown None (setIsTriggered true k)).
  destruct (startAlarm_hooks env y) as (a1 & _ & _ & a4 & a5 & a6 & _).
  destruct (obtainLocation_hooks env (startAlarm env y))
    as (b1 & _ & _ & b4 & b5 & b6 & _).
  rewrite b1, b4, b5, b6, a1, a4, a5, a6. subst y. simpl. auto.
Qed.

Lemma addLog_logs (env : Env) (ty : LogType) (msg : string) (s : State) :
  logs (addLog env ty msg s) =
  mkLogEntry (randomUUID env (List.length (logs s))) ty msg
    (toISOString env (List.length (logs s))) :: logs s.
Proof. reflexivity. Qed.

Lemma handle_logs (env : Env) (s : State) (e : Event) :
  exists new, logs (handle env e s) = (new ++ logs s)%list.
Proof.
  destruct e as [[]| | | | | | | | | | | | |]; simpl; expose.
  all: repeat match goal with
       | |- context [if ?b then _ else _] => destruct b
       | |- context [match ?x with _ => _ end] => destruct x
       end.
  all: simpl.
  all: first [ now exists [] | now eexists [_] | now eexists [_; _] ].
Qed.

Lemma step_logs (env : Env) (s : State) (e : Event) :
  exists new, logs (step env s e) = (new ++ logs s)%list.
Proof.
  unfold step. destruct (commit_hooks env s (handle env e s)) as (_ & -> & _).
  apply handle_logs.
Qed.

(** C9. The log only grows at its head: [addLog] puts one entry in front of
    the entries there are, and whatever events happen, from any state, the
    log of the state reached is the log of the state left, entry for entry
    and in the same order, behind the entries that are new. *)
Theorem log_append_only (env : Env) :
  (forall ty msg s,
     exists e, logs (addLog env ty msg s) = e :: logs s /\
               type e = ty /\ message e = msg) /\
  (forall es s, exists new, logs (run env s es) = (new ++ logs s)%list).
Proof.
  split.
  - intros ty msg s. eexists. rewrite addLog_logs. repeat split.
  - induction es as [|e es IH]; intro s; simpl.
    + now exists [].
    + destruct (IH (step env s e)) as [n1 H1].
      destruct (step_logs env s e) as [n2 H2].
      exists (n1 ++ n2)%list. now rewrite H1, H2, app_assoc.
Qed.

(** ** trigger *)

Lemma step_logs_eq (env : Env) (s : State) (e : Event) :
  logs (step env s e) = logs (handle env e s).
Proof. unfold step. now destruct (commit_hooks env s (handle env e s)) as (_ & -> & _). Qed.

(** C5. [trigger()] in the mode Disarmed puts two entries on the log, the
    entry [armed] and on top of it the entry [triggered]; in the mode Armed
    it puts one entry, [triggered]. *)
Theorem trigger_log_entries (env : Env) (s : State) :
  (mode s = Disarmed ->
     exists e1 e2,
       logs (step env s (Call Trigger)) = e2 :: e1 :: logs s /\
       type e1 = armed /\ type e2 = triggered) /\
  (mode s = Armed ->
     exists e,
       logs (step env s (Call Trigger)) = e :: logs s /\
       type e = triggered).
Proof.
  rewrite step_logs_eq. unfold mode. simpl. unfold trigger.
  destruct (isTriggered s), (countdown s), (isArmed s);
    split; intro H; try discriminate H; simpl.
  - eexists. unfold addLog. simpl. split; reflexivity.
  - unfold arm. rewrite obtainLocation_eq. unfold addLog. simpl.
    do 2 eexists. repeat split.
Qed.

Lemma trigger_log_entries_witness :
  (exists e1 e2,
     logs (step env0 init (Call Trigger)) = e2 :: e1 :: logs init /\
     type e1 = armed /\ type e2 = triggered) /\
  (exists e,
     logs (step env0 (step env0 init (Call Arm)) (Call Trigger)) =
     e :: logs (step env0 init (Call Arm)) /\
     type e = triggered).
Proof.
  split.
  - apply (proj1 (trigger_log_entries env0 init)). reflexivity.
  - apply (proj2 (trigger_log_entries env0 (step env0 init (Call Arm)))).
    reflexivity.
Defined.

(** ** The location request *)

(** C10. Without [navigator.geolocation] a location request returns at once:
    the state, so the log and the stored coordinate, is what it was, also
    through the Refresh Location button. The error callback of a request
    that was made, on the other hand, puts a [location] entry with the
    denial message on the log, and leaves the coordinate alone as well. *)
Theorem location_unavailable (env : Env) (s : State) :
  (geolocation env = false ->
     obtainLocation env s = s /\ step env s ClickRefresh = s) /\
  (forall n, geoPending s = S n ->
     logs (step env s GeoError) =
       mkLogEntry (randomUUID env (List.length (logs s))) location
         "Location access denied" (toISOString env (List.length (logs s)))
       :: logs s /\
     coords (step env s GeoError) = coords s).
Proof.
  split.
  - intro H.
    assert (E : obtainLocation env s = s)
      by (unfold obtainLocation; now rewrite H).
    split; [exact E |].
    unfold step. simpl. rewrite E, commit_spec, depsChanged_same. reflexivity.
  - intros n H. unfold step.
    destruct (commit_hooks env s (handle env GeoError s)) as (_ & -> & -> & _).
    simpl. rewrite H. split; reflexivity.
Qed.

Lemma location_unavailable_witness :
  (obtainLocation (mkEnv false true (randomUUID env0) (toISOString env0)) init
     = init /\
   step (mkEnv false true (randomUUID env0) (toISOString env0)) init
     ClickRefresh = init) /\
  logs (run env0 init [ClickRefresh; GeoError]) =
    [mkLogEntry "id0" location "Location access denied" "t0"].
Proof.
  split.
  - apply (location_unavailable
             (mkEnv false true (randomUUID env0) (toISOString env0)) init).
    reflexivity.
  - apply (proj2 (location_unavailable env0 (step env0 init ClickRefresh))
             0%nat).
    reflexivity.
Defined.

(** ** The timer tick *)

(** C6. In a state a run reaches whose mode is CountingDown, with the
    countdown at [c], the tick of the pending timeout takes the countdown to
    [c - 1] and leaves the mode CountingDown as long as [c - 1] is positive.
    When the tick takes it to 0 the mode becomes Triggered and the countdown
    null; no oscillator sounded before and exactly one, in a new audio
    context, sounds after; [getCurrentPosition] is called once where the
    browser has geolocation. Neither tick writes to the log. *)
Theorem tick_countdown (env : Env) (s : State) (c : Z) (t : nat) :
  reachable env s ->
  mode s = CountingDown ->
  countdown s = Some c ->
  In t (timers s) ->
  (1 < c ->
     countdown (step env s (TimerFire t)) = Some (c - 1) /\
     mode (step env s (TimerFire t)) = CountingDown /\
     oscillators (step env s (TimerFire t)) = [] /\
     geoPending (step env s (TimerFire t)) = geoPending s) /\
  (c = 1 ->
     mode (step env s (TimerFire t)) = Triggered /\
     countdown (step env s (TimerFire t)) = None /\
     timers (step env s (TimerFire t)) = [] /\
     oscillators s = [] /\
     oscillators (step env s (TimerFire t)) = [nextAudio s] /\
     audioCtxRef (step env s (TimerFire t)) = Some (nextAudio s) /\
     nextAudio (step env s (TimerFire t)) = S (nextAudio s) /\
     geoPending (step env s (TimerFire t)) =
       (if geolocation env then S (geoPending s) else geoPending s)) /\
  logs (step env s (TimerFire t)) = logs s.
Proof.
  intros Hr Hm Hc Ht.
  destruct (reachable_Inv env s Hr) as [I1 [A1 A2] I3 I4].
  unfold mode in Hm.
  destruct (isTriggered s) eqn:Et; [discriminate |].
  specialize (I3 eq_refl). rewrite I3 in A1. rewrite <- A1 in A2.
  rewrite Hc in I4. destruct I4 as [Hrange (t0 & E1 & E2)].
  rewrite E2 in Ht. destruct Ht as [<- | []].
  split; [| split].
  3: { rewrite step_logs_eq. simpl. rewrite E2. simpl.
       now rewrite Nat.eqb_refl. }
  all: intro Hc'.
  all: unfold step; rewrite commit_spec; simpl handle.
  all: rewrite E2; simpl existsb; rewrite Nat.eqb_refl; simpl orb; cbv iota.
  all: rewrite remove_single; unfold tick; simpl.
  all: unfold depsChanged; simpl; rewrite Hc; simpl.
  all: replace (c =? c - 1) with false by (symmetry; apply Z.eqb_neq; lia).
  all: simpl; rewrite cleanup_eq; unfold countdownEffect; simpl.
  - replace (c - 1 <=? 0) with false by (symmetry; apply Z.leb_gt; lia).
    unfold setTimeout, mode. simpl. rewrite Et. auto.
  - subst c. simpl. rewrite obtainLocation_eq, startAlarm_eq. simpl.
    rewrite I3. unfold mode. simpl. rewrite E1. simpl.
    destruct (geolocation env); repeat split; auto; now rewrite A2.
Qed.

Lemma tick_countdown_witness :
  (countdown (step env0 (run env0 init [Call Arm; Call Trigger]) (TimerFire 0))
     = Some 2 /\
   mode (step env0 (run env0 init [Call Arm; Call Trigger]) (TimerFire 0))
     = CountingDown) /\
  (mode (step env0 (run env0 init [Call Arm; Call Trigger; TimerFire 0;
                                   TimerFire 1]) (TimerFire 2)) = Triggered /\
   oscillators (step env0 (run env0 init [Call Arm; Call Trigger; TimerFire 0;
                                          TimerFire 1]) (TimerFire 2))
     = [0%nat]).
Proof.
  split.
  - destruct (tick_countdown env0 (run env0 init [Call Arm; Call Trigger])
                3 0%nat) as (H & _ & _).
    + apply reachable_init.
    + vm_compute. reflexivity.
    + vm_compute. reflexivity.
    + vm_compute. auto.
    + destruct H as (H1 & H2 & _); [lia | now split].
  - destruct (tick_countdown env0
                (run env0 init [Call Arm; Call Trigger; TimerFire 0;
                                TimerFire 1]) 1 2%nat) as (_ & H & _).
    + apply reachable_init.
    + vm_compute. reflexivity.
    + vm_compute. reflexivity.
    + vm_compute. auto.
    + destruct H as (H1 & _ & _ & _ & H2 & _); [reflexivity | now split].
Defined.

(** ** disarm *)

Lemma commit_null (env : Env) (s h : State) :
  countdown h = None ->
  commit env s h = h \/ commit env s h = cleanup h.
Proof.
  intro H. rewrite commit_spec. destruct (depsChanged s h); [right | now left].
  unfold countdownEffect.
  replace (countdown (cleanup h)) with (countdown h)
    by (rewrite cleanup_eq; reflexivity).
  now rewrite H.
Qed.

Lemma disarm_hooks (env : Env) (s : State) :
  isArmed (disarm env s) = false /\
  isTriggered (disarm env s) = false /\
  countdown (disarm env s) = None.
Proof.
  unfold disarm, stopAlarm. destruct (isTriggered s) eqn:E;
    rewrite ?releaseWakeLock_eq, ?stopOscillator_eq; simpl; auto.
Qed.

Lemma disarm_silent (env : Env) (s : State) :
  isTriggered s = false ->
  logs (disarm env s) =
    mkLogEntry (randomUUID env (List.length (logs s))) disarmed
      "System disarmed" (toISOString env (List.length (logs s))) :: logs s /\
  oscillators (disarm env s) = oscillators s.
Proof. intro E. unfold disarm. rewrite E. now split. Qed.

Lemma disarm_sounding (env : Env) (s : State) :
  isTriggered s = true ->
  logs (disarm env s) =
    mkLogEntry (randomUUID env (S (List.length (logs s)))) cancelled
      "Alarm cancelled" (toISOString env (S (List.length (logs s))))
    :: mkLogEntry (randomUUID env (List.length (logs s))) disarmed
         "System disarmed" (toISOString env (List.length (logs s)))
    :: logs s /\
  oscillators (disarm env s) =
    match oscillatorRef s with
    | Some h => remove Nat.eq_dec h (oscillators s)
    | None => oscillators s
    end /\
  oscillatorRef (disarm env s) = None /\
  audioCtxRef (disarm env s) = None.
Proof.
  intro E. unfold disarm, stopAlarm. rewrite E.
  rewrite releaseWakeLock_eq, stopOscillator_eq. now repeat split.
Qed.

(** C7. [disarm()] in a state a run reaches leaves the mode Disarmed, the
    countdown null and no timeout pending. From a mode other than Triggered
    it puts one entry, [disarmed], on the log and leaves the alarm output
    alone; from Triggered it puts [disarmed] and on top of it [cancelled],
    stops the oscillator and clears the audio refs. *)
Theorem disarm_any_mode (env : Env) (s : State) :
  reachable env s ->
  mode (step env s (Call Disarm)) = Disarmed /\
  countdown (step env s (Call Disarm)) = None /\
  timers (step env s (Call Disarm)) = [] /\
  (mode s <> Triggered ->
     exists e,
       logs (step env s (Call Disarm)) = e :: logs s /\
       type e = disarmed /\
       oscillators (step env s (Call Disarm)) = oscillators s) /\
  (mode s = Triggered ->
     exists e1 e2,
       logs (step env s (Call Disarm)) = e2 :: e1 :: logs s /\
       type e1 = disarmed /\ type e2 = cancelled /\
       oscillators (step env s (Call Disarm)) = [] /\
       oscillatorRef (step env s (Call Disarm)) = None /\
       audioCtxRef (step env s (Call Disarm)) = None).
Proof.
  intro Hr. pose proof (reachable_Inv env s Hr) as I.
  pose proof (step_Inv env s (Call Disarm) I) as I'.
  destruct (disarm_hooks env s) as (F1 & F2 & F3).
  pose proof (disarm_silent env s) as Fs.
  pose proof (disarm_sounding env s) as Ft.
  unfold step in *. simpl handle in *.
  assert (K : forall (f : State -> option nat),
            f = oscillatorRef \/ f = audioCtxRef ->
            f (commit env s (disarm env s)) = f (disarm env s)).
  { intros f Hf. destruct (commit_null env s _ F3) as [-> | ->]; auto.
    rewrite cleanup_eq. destruct Hf as [-> | ->]; reflexivity. }
  assert (Ko : oscillators (commit env s (disarm env s)) =
               oscillators (disarm env s)).
  { destruct (commit_null env s _ F3) as [-> | ->]; auto.
    rewrite cleanup_eq. reflexivity. }
  assert (Kh : isArmed (commit env s (disarm env s)) = false /\
               isTriggered (commit env s (disarm env s)) = false /\
               countdown (commit env s (disarm env s)) = None).
  { destruct (commit_null env s _ F3) as [-> | ->]; auto.
    rewrite cleanup_eq. simpl. auto. }
  destruct (commit_hooks env s (disarm env s)) as (_ & Kl & _).
  destruct Kh as (K1 & K2 & K3).
  generalize dependent (commit env s (disarm env s)). intros r I' K Ko K1 K2 K3 Kl.
  generalize dependent (disarm env s). intros h _ _ _ Fs Ft K Ko Kl.
  destruct I' as [_ _ _ J]. rewrite K3 in J. destruct J as [_ J].
  rewrite (K oscillatorRef), (K audioCtxRef), Ko, Kl by auto.
  unfold mode. rewrite K1, K2, K3.
  destruct I as [_ [A1 A2] _ _].
  repeat split; auto.
  - intro Hm. destruct (isTriggered s); [now elim Hm |].
    destruct (Fs eq_refl) as [-> ->]. eexists. repeat split.
  - intro Hm. destruct (isTriggered s).
    + destruct (Ft eq_refl) as (-> & -> & -> & ->).
      do 2 eexists. repeat split.
      rewrite A2. destruct (oscillatorRef s); auto using remove_single.
    + destruct (countdown s), (isArmed s); discriminate Hm.
Qed.

Lemma disarm_any_mode_witness :
  mode (step env0 (run env0 init [KeySpace; TimerFire 0; TimerFire 1;
                                  TimerFire 2]) (Call Disarm)) = Disarmed /\
  oscillators (step env0 (run env0 init [KeySpace; TimerFire 0; TimerFire 1;
                                         TimerFire 2]) (Call Disarm)) = [].
Proof.
  destruct (disarm_any_mode env0
              (run env0 init [KeySpace; TimerFire 0; TimerFire 1; TimerFire 2]))
    as (H1 & _ & _ & _ & H2).
  - apply reachable_init.
  - split; [exact H1 |].
    destruct H2 as (e1 & e2 & _ & _ & _ & H & _);
      [vm_compute; reflexivity | exact H].
Defined.

(** ** Transitions to Triggered *)

Lemma isMode_Triggered (s : State) : isMode Triggered s = isTriggered s.
Proof.
  unfold isMode, mode.
  now destruct (isTriggered s), (countdown s), (isArmed s).
Qed.

Lemma run_app (env : Env) (es1 es2 : list Event) (s : State) :
  run env s (es1 ++ es2) = run env (run env s es1) es2.
Proof. apply fold_left_app. Qed.

Lemma entersTriggered_app (env : Env) (es1 es2 : list Event) (s : State) :
  entersTriggered env s (es1 ++ es2) =
  (entersTriggered env s es1
   + entersTriggered env (run env s es1) es2)%nat.
Proof.
  revert s. induction es1 as [|e es1 IH]; intro s; simpl; [reflexivity |].
  rewrite IH. lia.
Qed.

(** A timeout that fires leaves the alarm on if it was on. *)
Lemma fire_keeps_triggered (env : Env) (s : State) (t : nat) :
  isTriggered s = true -> isTriggered (step env s (TimerFire t)) = true.
Proof.
  intro H. unfold step. rewrite commit_spec.
  assert (Hh : isTriggered (handle env (TimerFire t) s) = true).
  { simpl. destruct (existsb _ _); [| exact H]. exact H. }
  revert Hh. generalize (handle env (TimerFire t) s) as h. intros h Hh.
  destruct (depsChanged s h); [| exact Hh].
  assert (Hk : isTriggered (cleanup h) = true)
    by (rewrite cleanup_eq; exact Hh).
  revert Hk. generalize (cleanup h) as k. intros k Hk.
  destruct (countdownEffect_cases env k)
    as [[_ ->] | [(c & _ & _ & ->) | (c & _ & _ & ->)]]; auto.
  destruct (obtainLocation_hooks env
              (startAlarm env (setCountdown None (setIsTriggered true k))))
    as (_ & -> & _).
  destruct (startAlarm_hooks env (setCountdown None (setIsTriggered true k)))
    as (_ & -> & _).
  reflexivity.
Qed.

Lemma fires_keep_triggered (env : Env) (fires : list nat) (s : State) :
  isTriggered s = true ->
  isTriggered (run env s (map TimerFire fires)) = true.
Proof.
  revert s. induction fires as [|t fires IH]; intros s H; simpl; auto.
  apply IH, fire_keeps_triggered, H.
Qed.

(** Along timeouts alone the mode Triggered is entered once if the run ends
    in it from outside, and never otherwise. *)
Lemma fires_enter_once (env : Env) (fires : list nat) (s : State) :
  entersTriggered env s (map TimerFire fires) =
  if negb (isTriggered s) && isTriggered (run env s (map TimerFire fires))
  then 1%nat else 0%nat.
Proof.
  revert s. induction fires as [|t fires IH]; intro s; simpl.
  - now destruct (isTriggered s).
  - rewrite IH, !isMode_Triggered.
    destruct (isTriggered s) eqn:E; simpl.
    + now rewrite (fire_keeps_triggered env s t E).
    + destruct (isTriggered (step env s (TimerFire t))) eqn:E'; simpl.
      * now rewrite (fires_keep_triggered env fires _ E').
      * now destruct (isTriggered (run env _ _)).
Qed.

Lemma retrigger_quiet (env : Env) :
  entersTriggered env init retrigger = 0%nat /\
  isTriggered (run env init retrigger) = false.
Proof. destruct env as [[] [] u d]; vm_compute; split; reflexivity. Qed.

Lemma retrigger_timers (env : Env) :
  timers (run env init [Call Trigger]) = [0%nat] /\
  timers (run env init [Call Trigger; Call CancelCountdown]) = [] /\
  timers (run env init retrigger) = [1%nat] /\
  step env (run env init retrigger) (TimerFire 0) = run env init retrigger /\
  mode (run env init (retrigger ++ map TimerFire [1; 2; 3]%nat)) = Triggered.
Proof. destruct env as [[] [] u d]; vm_compute; repeat split; reflexivity. Qed.

Lemma retrigger_count (env : Env) (fires : list nat) :
  entersTriggered env init (retrigger ++ map TimerFire fires) =
  if isTriggered (run env init (retrigger ++ map TimerFire fires))
  then 1%nat else 0%nat.
Proof.
  destruct (retrigger_quiet env) as (E0 & E1).
  rewrite entersTriggered_app, E0, fires_enter_once, E1, run_app.
  reflexivity.
Qed.

(** C3. After [trigger()], [cancelCountdown()], [trigger()] the timeout of
    the first countdown (timeout 0) is no longer pending, the only pending
    timeout is the one of the second countdown (timeout 1), and the first
    one elapsing changes nothing. Whatever timeouts elapse afterwards, in
    whatever order, the mode Triggered is entered at most once; it is entered
    exactly once as soon as the run ends in Triggered, which it does when the
    timeouts of the second countdown elapse. *)
Theorem retrigger_once (env : Env) (fires : list nat) :
  timers (run env init [Call Trigger]) = [0%nat] /\
  timers (run env init [Call Trigger; Call CancelCountdown]) = [] /\
  timers (run env init retrigger) = [1%nat] /\
  step env (run env init retrigger) (TimerFire 0) = run env init retrigger /\
  (entersTriggered env init (retrigger ++ map TimerFire fires) <= 1)%nat /\
  (mode (run env init (retrigger ++ map TimerFire fires)) = Triggered ->
   entersTriggered env init (retrigger ++ map TimerFire fires) = 1%nat) /\
  mode (run env init (retrigger ++ map TimerFire [1; 2; 3]%nat)) = Triggered.
Proof.
  destruct (retrigger_timers env) as (T1 & T2 & T3 & T4 & T5).
  split; [exact T1 |]. split; [exact T2 |]. split; [exact T3 |].
  split; [exact T4 |]. split; [| split; [| exact T5]].
  - rewrite retrigger_count. destruct (isTriggered _); lia.
  - rewrite retrigger_count, <- isMode_Triggered. unfold isMode.
    now intros ->.
Qed.

Lemma retrigger_once_witness :
  entersTriggered env0 init (retrigger ++ map TimerFire [0; 1; 2; 3]%nat)
    = 1%nat.
Proof.
  destruct (retrigger_once env0 [0; 1; 2; 3]%nat) as (_ & _ & _ & _ & _ & H & _).
  apply H. vm_compute. reflexivity.
Defined.

(** ** Intents in a mode that does not expect them *)

(** C2. Space pressed during the countdown, and Space pressed while the
    alarm sounds: [trigger()] runs all the same. With the countdown at 2 it
    puts the countdown back to 3 and a second [triggered] entry on the log;
    in the mode Triggered it starts a countdown and logs [triggered] as
    well. *)
Theorem trigger_reentrant (env : Env) :
  (mode (run env init [KeySpace; TimerFire 0]) = CountingDown /\
   countdown (run env init [KeySpace; TimerFire 0]) = Some 2 /\
   countdown (run env init [KeySpace; TimerFire 0; KeySpace]) = Some 3 /\
   map type (logs (run env init [KeySpace; TimerFire 0]))
     = [triggered; armed] /\
   map type (logs (run env init [KeySpace; TimerFire 0; KeySpace]))
     = [triggered; triggered; armed]) /\
  (mode (run env init [KeySpace; TimerFire 0; TimerFire 1; TimerFire 2])
     = Triggered /\
   countdown (run env init [KeySpace; TimerFire 0; TimerFire 1; TimerFire 2])
     = None /\
   countdown (run env init [KeySpace; TimerFire 0; TimerFire 1; TimerFire 2;
                            KeySpace]) = Some 3 /\
   map type (logs (run env init [KeySpace; TimerFire 0; TimerFire 1;
                                 TimerFire 2; KeySpace]))
     = [triggered; triggered; armed]).
Proof. destruct env as [[] [] u d]; vm_compute; repeat split; reflexivity. Qed.

(** C1. Space, three ticks, Space: the run ends with the alarm on (the
    triggered flag set, the oscillator sounding, the status line showing the
    alarm) and the countdown at 3, so with a countdown that is not null in a
    mode that is not CountingDown. *)
Theorem countdown_while_triggered (env : Env) :
  isTriggered (run env init [KeySpace; TimerFire 0; TimerFire 1; TimerFire 2;
                             KeySpace]) = true /\
  oscillators (run env init [KeySpace; TimerFire 0; TimerFire 1; TimerFire 2;
                             KeySpace]) = [0%nat] /\
  mode (run env init [KeySpace; TimerFire 0; TimerFire 1; TimerFire 2;
                      KeySpace]) = Triggered /\
  countdown (run env init [KeySpace; TimerFire 0; TimerFire 1; TimerFire 2;
                           KeySpace]) = Some 3.
Proof. destruct env as [[] [] u d]; vm_compute; repeat split; reflexivity. Qed.

(** [arm()] twice from the first render: two [armed] entries, and a state
    after the second call that is not the state after the first. *)
Lemma arm_twice_counterexample :
  map type (logs (run env0 init [Call Arm; Call Arm])) = [armed; armed] /\
  run env0 init [Call Arm; Call Arm] <> run env0 init [Call Arm].
Proof.
  split; [vm_compute; reflexivity |].
  intro H. apply (f_equal (fun s => List.length (logs s))) in H.
  vm_compute in H. discriminate H.
Qed.

(** C8 (as amended). [arm()] has no guard: every call sets the armed flag,
    puts an [armed] entry on the log and asks for the location. It is where
    [arm] is called that arming twice is ruled out: with the armed flag set
    the toggle button calls [disarm], and [trigger()] goes on without
    arming. *)
Theorem arm_guarded_by_callers (env : Env) (s : State) :
  isArmed (arm env s) = true /\
  logs (arm env s) =
    mkLogEntry (randomUUID env (List.length (logs s))) armed "System armed"
      (toISOString env (List.length (logs s))) :: logs s /\
  geoPending (arm env s) =
    (if geolocation env then S (geoPending s) else geoPending s) /\
  (isArmed s = true ->
     handle env ClickToggle s = disarm env s /\
     trigger env s =
       (s |> setCountdown (Some 3)
          |> addLog env triggered "Panic sequence initiated (3s)")) /\
  (isArmed s = false -> handle env ClickToggle s = arm env s).
Proof.
  unfold arm at 1 2 3. rewrite obtainLocation_eq. simpl.
  split; [reflexivity |]. split; [reflexivity |]. split; [reflexivity |].
  split; intro H; unfold onToggle, trigger; rewrite H; auto.
Qed.

Lemma arm_guarded_by_callers_witness :
  handle env0 ClickToggle (run env0 init [Call Arm])
    = disarm env0 (run env0 init [Call Arm]) /\
  handle env0 ClickToggle init = arm env0 init.
Proof.
  destruct (arm_guarded_by_callers env0 (run env0 init [Call Arm]))
    as (_ & _ & _ & H & _).
  destruct (arm_guarded_by_callers env0 init) as (_ & _ & _ & _ & H').
  split; [apply H | apply H']; vm_compute; reflexivity.
Defined.

(** [stop()] and [cancelCountdown()] in the mode Disarmed: each puts a
    [cancelled] entry on the log. *)
Lemma stop_disarmed_counterexample :
  mode init = Disarmed /\
  map type (logs (step env0 init (Call Stop))) = [cancelled] /\
  map type (logs (step env0 init (Call CancelCountdown))) = [cancelled].
Proof. vm_compute. repeat split; reflexivity. Qed.

Lemma stop_step (env : Env) (s : State) :
  step env s (Call Stop) = stop env s.
Proof.
  unfold step. simpl handle. rewrite commit_spec. unfold depsChanged.
  unfold stop, stopAlarm. rewrite releaseWakeLock_eq, stopOscillator_eq.
  simpl. now rewrite eqCountdown_same, Qeq_bool_same.
Qed.

Lemma stop_does (env : Env) (s : State) :
  isTriggered (stop env s) = false /\
  audioCtxRef (stop env s) = None /\
  oscillatorRef (stop env s) = None /\
  (forall h, oscillatorRef s = Some h -> ~ In h (oscillators (stop env s))) /\
  isArmed (stop env s) = isArmed s /\
  countdown (stop env s) = countdown s.
Proof.
  unfold stop, stopAlarm. rewrite releaseWakeLock_eq, stopOscillator_eq.
  simpl. repeat split. intros h ->. apply remove_In.
Qed.

Lemma cancel_does (env : Env) (s : State) :
  countdown (step env s (Call CancelCountdown)) = None /\
  isArmed (step env s (Call CancelCountdown)) = isArmed s /\
  isTriggered (step env s (Call CancelCountdown)) = isTriggered s.
Proof.
  unfold step. simpl handle.
  destruct (commit_null env s (cancelCountdown env s) eq_refl) as [-> | ->].
  - now repeat split.
  - rewrite cleanup_eq. now repeat split.
Qed.

(** C4 (as amended). [stop()] and [cancelCountdown()] have no guard: in any
    mode each puts a [cancelled] entry on the log; [stop()] also clears the
    triggered flag and turns the alarm output off (the audio refs are null
    and the oscillator of the ref no longer sounds), leaving the armed flag
    and the countdown; [cancelCountdown()] also clears the countdown,
    leaving both flags. The modes are told apart where they are called: the
    round button calls [cancelCountdown] when the countdown is not null,
    [stop] when it is null and the alarm is triggered, [trigger] otherwise;
    Escape calls [cancelCountdown] when the countdown is not null and
    [stop] when the alarm is triggered, both when both hold, so that Escape
    with the countdown null and the alarm not triggered leaves the state,
    log included, as it is. *)
Theorem intents_gated_by_callers (env : Env) (s : State) :
  logs (step env s (Call Stop)) =
    mkLogEntry (randomUUID env (List.length (logs s))) cancelled
      "Alarm stopped" (toISOString env (List.length (logs s))) :: logs s /\
  logs (step env s (Call CancelCountdown)) =
    mkLogEntry (randomUUID env (List.length (logs s))) cancelled
      "Countdown cancelled" (toISOString env (List.length (logs s)))
    :: logs s /\
  (countdown s <> None -> handle env ClickMain s = cancelCountdown env s) /\
  (countdown s = None -> isTriggered s = true ->
     handle env ClickMain s = stop env s /\
     handle env KeyEscape s = stop env s) /\
  (countdown s = None -> isTriggered s = false ->
     handle env ClickMain s = trigger env s /\
     step env s KeyEscape = s) /\
  (countdown s <> None -> isTriggered s = false ->
     handle env KeyEscape s = cancelCountdown env s) /\
  (countdown s <> None -> isTriggered s = true ->
     handle env KeyEscape s = stop env (cancelCountdown env s)) /\
  isTriggered (step env s (Call Stop)) = false /\
  audioCtxRef (step env s (Call Stop)) = None /\
  oscillatorRef (step env s (Call Stop)) = None /\
  (forall h, oscillatorRef s = Some h ->
             ~ In h (oscillators (step env s (Call Stop)))) /\
  isArmed (step env s (Call Stop)) = isArmed s /\
  countdown (step env s (Call Stop)) = countdown s /\
  countdown (step env s (Call CancelCountdown)) = None /\
  isArmed (step env s (Call CancelCountdown)) = isArmed s /\
  isTriggered (step env s (Call CancelCountdown)) = isTriggered s.
Proof.
  split.
  { rewrite step_logs_eq. simpl. unfold stop, stopAlarm.
    now rewrite releaseWakeLock_eq, stopOscillator_eq. }
  split; [now rewrite step_logs_eq |].
  assert (G : (countdown s <> None ->
                 handle env ClickMain s = cancelCountdown env s) /\
              (countdown s = None -> isTriggered s = true ->
                 handle env ClickMain s = stop env s /\
                 handle env KeyEscape s = stop env s) /\
              (countdown s = None -> isTriggered s = false ->
                 handle env ClickMain s = trigger env s /\
                 step env s KeyEscape = s) /\
              (countdown s <> None -> isTriggered s = false ->
                 handle env KeyEscape s = cancelCountdown env s) /\
              (countdown s <> None -> isTriggered s = true ->
                 handle env KeyEscape s = stop env (cancelCountdown env s))).
  { unfold step. simpl. unfold onMain, onEscape.
    destruct (countdown s) as [c|].
    - split; [reflexivity |].
      split; [discriminate |]. split; [discriminate |].
      split; intros _ Ht; rewrite Ht; reflexivity.
    - split; [intro H; now elim H |].
      split; [intros _ Ht; rewrite Ht; split; reflexivity |].
      split; [| split; intro H; now elim H].
      intros _ Ht. rewrite Ht. split; [reflexivity |].
      now rewrite commit_spec, depsChanged_same. }
  destruct G as (G1 & G2 & G3 & G4 & G5).
  split; [exact G1 |]. split; [exact G2 |]. split; [exact G3 |].
  split; [exact G4 |]. split; [exact G5 |].
  rewrite stop_step.
  destruct (stop_does env s) as (S1 & S2 & S3 & S4 & S5 & S6).
  destruct (cancel_does env s) as (K1 & K2 & K3).
  repeat split; assumption.
Qed.

Lemma intents_gated_by_callers_witness :
  step env0 init KeyEscape = init /\
  handle env0 ClickMain (run env0 init [KeySpace])
    = cancelCountdown env0 (run env0 init [KeySpace]) /\
  handle env0 KeyEscape
    (run env0 init [KeySpace; TimerFire 0; TimerFire 1; TimerFire 2; KeySpace])
    = stop env0
        (cancelCountdown env0
           (run env0 init [KeySpace; TimerFire 0; TimerFire 1; TimerFire 2;
                           KeySpace])) /\
  handle env0 KeyEscape
    (run env0 init [KeySpace; TimerFire 0; TimerFire 1; TimerFire 2])
    = stop env0
        (run env0 init [KeySpace; TimerFire 0; TimerFire 1; TimerFire 2]).
Proof.
  destruct (intents_gated_by_callers env0 init) as (_ & _ & _ & _ & H & _).
  destruct (intents_gated_by_callers env0 (run env0 init [KeySpace]))
    as (_ & _ & H' & _).
  destruct (intents_gated_by_callers env0
              (run env0 init [KeySpace; TimerFire 0; TimerFire 1; TimerFire 2;
                              KeySpace]))
    as (_ & _ & _ & _ & _ & _ & H2 & _).
  destruct (intents_gated_by_callers env0
              (run env0 init [KeySpace; TimerFire 0; TimerFire 1; TimerFire 2]))
    as (_ & _ & _ & H3 & _).
  split; [apply H; reflexivity |].
  split; [apply H'; vm_compute; discriminate |].
  split; [apply H2; vm_compute; [discriminate | reflexivity] |].
  apply H3; vm_compute; reflexivity.
Defined.

(** ** Runs that keep [trigger] out of the mode Triggered *)

Lemma commit_exclusive (env : Env) (s h : State) :
  exclusive h -> exclusive (commit env s h).
Proof.
  unfold exclusive. intro H. rewrite commit_spec.
  destruct (depsChanged s h); [| exact H].
  assert (Hk : isTriggered (cleanup h) = true -> countdown (cleanup h) = None)
    by (rewrite cleanup_eq; exact H).
  revert Hk. generalize (cleanup h) as k. intros k Hk.
  destruct (countdownEffect_cases env k)
    as [[_ ->] | [(c & _ & _ & ->) | (c & _ & _ & ->)]]; auto.
  intros _.
  destruct (obtainLocation_hooks env
              (startAlarm env (setCountdown None (setIsTriggered true k))))
    as (_ & _ & -> & _).
  destruct (startAlarm_hooks env (setCountdown None (setIsTriggered true k)))
    as (_ & _ & -> & _).
  reflexivity.
Qed.

Lemma handle_exclusive (env : Env) (s : State) (e : Event) :
  Inv s -> exclusive s ->
  (callsTrigger e = true -> isTriggered s = false) ->
  exclusive (handle env e s).
Proof.
  unfold exclusive. intros [_ _ _ I4] X G.
  destruct (isTriggered s) eqn:Et, (countdown s) as [c|] eqn:Ec.
  all: try (specialize (X eq_refl); discriminate X).
  all: try (destruct I4 as [Ht1 Ht2]).
  all: destruct e as [[]| | | | | | | | | | | | |]; simpl in G; simpl.
  all: try (specialize (G eq_refl); discriminate G).
  all: clear G; expose; rewrite ?Et, ?Ec, ?Ht2; simpl existsb; cbv iota.
  all: repeat match goal with
       | |- context [if ?b then _ else _] => destruct b eqn:?
       | |- context [match ?x with _ => _ end] => destruct x eqn:?
       end.
  all: simpl; rewrite ?Et, ?Ec; congruence.
Qed.

Lemma gated_run_exclusive (env : Env) (es : list Event) (s : State) :
  Inv s -> exclusive s -> triggerGated env s es = true ->
  exclusive (run env s es).
Proof.
  revert s. induction es as [|e es IH]; intros s I X G; simpl in *; auto.
  apply andb_prop in G as [G1 G2].
  apply IH; auto using step_Inv.
  apply commit_exclusive, handle_exclusive; auto.
  intro Hc. rewrite Hc in G1. now apply negb_true_iff.
Qed.

(** Where no event calls [trigger()] while the alarm is on, the countdown is
    not null exactly in the mode CountingDown. *)
Theorem gated_run_countdown (env : Env) (es : list Event) :
  triggerGated env init es = true ->
  (countdown (run env init es) <> None <->
   mode (run env init es) = CountingDown).
Proof.
  intro G.
  pose proof (gated_run_exclusive env es init init_Inv
                (fun H => eq_refl) G) as X.
  unfold exclusive, mode in *. revert X.
  generalize (run env init es) as r. intros r X.
  destruct (isTriggered r).
  - rewrite (X eq_refl). split; [intro H; now elim H | discriminate].
  - destruct (countdown r); [split; [reflexivity | discriminate] |].
    split; [intro H; now elim H |]. now destruct (isArmed r).
Qed.

(** * Further properties of the page *)

(** ** Invariants of the runs *)

(** X1. In every state a run reaches at most one timeout is pending, it is
    the one the cleanup of the countdown effect holds, one is pending
    exactly when the countdown is not null, and a countdown that is not null
    is 1, 2 or 3. *)
Theorem single_pending_timeout (env : Env) (s : State) :
  reachable env s ->
  (List.length (timers s) <= 1)%nat /\
  (timers s = [] <-> countdown s = None) /\
  (forall t, In t (timers s) -> effectTimer s = Some t) /\
  (forall c, countdown s = Some c -> 1 <= c <= 3).
Proof.
  intro Hr. destruct (reachable_Inv env s Hr) as [_ _ _ I4].
  destruct (countdown s) as [c|].
  - destruct I4 as [Hc (t & E1 & E2)]. rewrite E1, E2. simpl.
    split; [lia |]. split; [split; discriminate |].
    split; [intros t' [<- | []]; reflexivity |].
    intros c' H. injection H as <-. lia.
  - destruct I4 as [E1 E2]. rewrite E2. simpl.
    split; [lia |]. split; [tauto |].
    split; [intros t [] | discriminate].
Qed.

Lemma single_pending_timeout_witness :
  (List.length (timers (run env0 init [KeySpace; TimerFire 0])) <= 1)%nat /\
  (forall c, countdown (run env0 init [KeySpace; TimerFire 0]) = Some c ->
             1 <= c <= 3).
Proof.
  destruct (single_pending_timeout env0 (run env0 init [KeySpace; TimerFire 0]))
    as (H1 & _ & _ & H2).
  - apply reachable_init.
  - split; [exact H1 | exact H2].
Defined.

(** Induction over the runs, with the invariant at hand. *)
Lemma run_ind (env : Env) (P : State -> Prop) (s0 : State) :
  Inv s0 -> P s0 ->
  (forall s e, Inv s -> P s -> P (step env s e)) ->
  forall es, P (run env s0 es).
Proof.
  intros I0 H0 Hs es. revert s0 I0 H0.
  induction es as [|e es IH]; intros s0 I0 H0; simpl; auto.
  apply IH; auto using step_Inv.
Qed.

Lemma reachable_ind (env : Env) (P : State -> Prop) :
  (forall a t v l c, P (firstRender a t v l c)) ->
  (forall s e, Inv s -> P s -> P (step env s e)) ->
  forall s, reachable env s -> P s.
Proof.
  intros H0 Hs s (a & t & v & l & c & es & ->).
  apply run_ind; auto using firstRender_Inv.
Qed.

Lemma handle_alarm_kept (env : Env) (s : State) (e : Event) :
  (isTriggered s = true -> audioCtxRef s <> None) ->
  isTriggered (handle env e s) = true -> audioCtxRef (handle env e s) <> None.
Proof.
  intro X.
  destruct (isTriggered s) eqn:Et.
  all: destruct e as [[]| | | | | | | | | | | | |]; simpl.
  all: expose; rewrite ?Et.
  all: repeat match goal with
       | |- context [if ?b then _ else _] => destruct b eqn:?
       | |- context [match ?x with _ => _ end] => destruct x eqn:?
       end.
  all: simpl; rewrite ?Et; auto; discriminate.
Qed.

Lemma commit_alarm_kept (env : Env) (s h : State) :
  (isTriggered h = true -> audioCtxRef h <> None) ->
  isTriggered (commit env s h) = true -> audioCtxRef (commit env s h) <> None.
Proof.
  intro H. rewrite commit_spec. destruct (depsChanged s h); [| exact H].
  assert (Hk : isTriggered (cleanup h) = true -> audioCtxRef (cleanup h) <> None)
    by (rewrite cleanup_eq; exact H).
  revert Hk. generalize (cleanup h) as k. intros k Hk.
  destruct (countdownEffect_cases env k)
    as [[_ ->] | [(c & _ & _ & ->) | (c & _ & _ & ->)]]; auto.
  intros _. rewrite obtainLocation_eq, startAlarm_eq. simpl.
  destruct (audioCtxRef k) eqn:E; simpl; rewrite ?E; discriminate.
Qed.

(** X2. The alarm output exists only while the alarm is triggered: in every
    state a run reaches from any first render, a set audio context ref
    implies the triggered flag, the oscillator ref goes with the audio
    context ref, and the oscillators that sound are the one in the ref, so
    never more than one. Where the first render did not restore a set
    triggered flag the converse holds as well: the flag is set if and only
    if the audio context ref is. (A first render that restored the flag has
    it set with the refs null.) *)
Theorem alarm_iff_triggered (env : Env) (a t : bool) (v : Q)
    (l : list LogEntry) (c : option Coords) (es : list Event) (s : State) :
  s = run env (firstRender a t v l c) es ->
  (audioCtxRef s <> None -> isTriggered s = true) /\
  oscillatorRef s = audioCtxRef s /\
  oscillators s = match audioCtxRef s with
                  | Some ctx => [ctx]
                  | None => []
                  end /\
  (t = false -> (isTriggered s = true <-> audioCtxRef s <> None)).
Proof.
  intros ->.
  destruct (run_Inv env es _ (firstRender_Inv a t v l c))
    as [_ [A1 A2] I3 _].
  assert (Y : audioCtxRef (run env (firstRender a t v l c) es) <> None ->
              isTriggered (run env (firstRender a t v l c) es) = true).
  { destruct (isTriggered _); [reflexivity |]. intro H. elim H. now apply I3. }
  split; [exact Y |]. split; [now symmetry |]. split; [now rewrite A1 |].
  intros ->. split; [| exact Y].
  apply (run_ind env
           (fun s => isTriggered s = true -> audioCtxRef s <> None)).
  - apply firstRender_Inv.
  - discriminate.
  - intros s e _ X. apply commit_alarm_kept, handle_alarm_kept, X.
Qed.

Lemma alarm_iff_triggered_witness :
  isTriggered (run env0 init [KeySpace; TimerFire 0; TimerFire 1; TimerFire 2])
    = true /\
  oscillators (run env0 init [KeySpace; TimerFire 0; TimerFire 1; TimerFire 2])
    = [0%nat].
Proof.
  destruct (alarm_iff_triggered env0 false false (8 # 10) [] None
              [KeySpace; TimerFire 0; TimerFire 1; TimerFire 2]
              (run env0 init [KeySpace; TimerFire 0; TimerFire 1; TimerFire 2]))
    as (_ & _ & H2 & H1).
  - reflexivity.
  - split; [apply H1; [reflexivity | vm_compute; discriminate] | exact H2].
Defined.

(** ** The armed flag *)

Lemma handle_triggeredArmed (env : Env) (s : State) (e : Event) :
  triggeredArmed s -> triggeredArmed (handle env e s).
Proof.
  unfold triggeredArmed. intro X.
  destruct (isTriggered s) eqn:Et, (isArmed s) eqn:Ea.
  all: try (specialize (X eq_refl); discriminate X).
  all: destruct e as [[]| | | | | | | | | | | | |]; simpl.
  all: expose; rewrite ?Et, ?Ea.
  all: repeat match goal with
       | |- context [if ?b then _ else _] => destruct b eqn:?
       | |- context [match ?x with _ => _ end] => destruct x eqn:?
       end.
  all: simpl; rewrite ?Et, ?Ea; auto.
Qed.

Lemma commit_triggeredArmed (env : Env) (s h : State) :
  (countdown h <> None -> isArmed h = true) ->
  triggeredArmed h -> triggeredArmed (commit env s h).
Proof.
  unfold triggeredArmed. intros Ha H. rewrite commit_spec.
  destruct (depsChanged s h); [| exact H].
  assert (Hk : (countdown (cleanup h) <> None -> isArmed (cleanup h) = true) /\
               (isTriggered (cleanup h) = true -> isArmed (cleanup h) = true))
    by (rewrite cleanup_eq; split; assumption).
  revert Hk. generalize (cleanup h) as k. intros k [Hk1 Hk2].
  destruct (countdownEffect_cases env k)
    as [[_ ->] | [(c & Hc & _ & ->) | (c & _ & _ & ->)]]; auto.
  intros _.
  destruct (obtainLocation_hooks env
              (startAlarm env (setCountdown None (setIsTriggered true k))))
    as (-> & _).
  destruct (startAlarm_hooks env (setCountdown None (setIsTriggered true k)))
    as (-> & _).
  simpl. apply Hk1. rewrite Hc. discriminate.
Qed.

Lemma run_triggeredArmed (env : Env) (a t : bool) (v : Q)
    (l : list LogEntry) (c : option Coords) (es : list Event) :
  (t = true -> a = true) ->
  triggeredArmed (run env (firstRender a t v l c) es).
Proof.
  intro H. apply (run_ind env triggeredArmed).
  - apply firstRender_Inv.
  - exact H.
  - intros s e I X. apply commit_triggeredArmed.
    + apply (pre_armed s _ (handle_PreInv env s e I)).
    + now apply handle_triggeredArmed.
Qed.

(** X3. With the armed flag clear no countdown runs and no timeout is
    pending, in every state a run reaches from any first render. Where the
    first render did not restore the triggered flag set with the armed flag
    clear, the alarm is triggered only with the armed flag set, so with the
    armed flag clear nothing at all is going on: the alarm is not triggered,
    no oscillator sounds, and the mode is Disarmed. *)
Theorem disarmed_is_idle (env : Env) (a t : bool) (v : Q)
    (l : list LogEntry) (c : option Coords) (es : list Event) (s : State) :
  s = run env (firstRender a t v l c) es ->
  isArmed s = false ->
  countdown s = None /\ timers s = [] /\
  ((t = true -> a = true) ->
     mode s = Disarmed /\ isTriggered s = false /\ oscillators s = []).
Proof.
  intros -> Ha.
  destruct (run_Inv env es _ (firstRender_Inv a t v l c))
    as [I1 [A1 A2] I3 I4].
  assert (Ec : countdown (run env (firstRender a t v l c) es) = None).
  { destruct (countdown _); [| reflexivity].
    rewrite I1 in Ha; discriminate. }
  rewrite Ec in I4. destruct I4 as [_ E2].
  split; [exact Ec |]. split; [exact E2 |].
  intro Hc. pose proof (run_triggeredArmed env a t v l c es Hc) as X.
  unfold triggeredArmed in X.
  assert (Et : isTriggered (run env (firstRender a t v l c) es) = false).
  { destruct (isTriggered _); [| reflexivity].
    rewrite X in Ha; [discriminate | reflexivity]. }
  specialize (I3 Et). rewrite I3 in A1. rewrite <- A1 in A2.
  unfold mode. now rewrite Et, Ec, Ha.
Qed.

Lemma disarmed_is_idle_witness :
  timers (run env0 init [KeySpace; TimerFire 0; ClickToggle]) = [] /\
  mode (run env0 init [KeySpace; TimerFire 0; ClickToggle]) = Disarmed.
Proof.
  destruct (disarmed_is_idle env0 false false (8 # 10) [] None
              [KeySpace; TimerFire 0; ClickToggle]
              (run env0 init [KeySpace; TimerFire 0; ClickToggle]))
    as (_ & H1 & H2).
  - reflexivity.
  - vm_compute. reflexivity.
  - split; [exact H1 |]. now apply H2.
Defined.

(** ** The re-render after a handler *)

Lemma commit_unchanged (env : Env) (s h : State) :
  countdown h = countdown s -> volume h = volume s -> commit env s h = h.
Proof.
  intros Hc Hv. rewrite commit_spec. unfold depsChanged.
  now rewrite Hc, Hv, eqCountdown_same, Qeq_bool_same.
Qed.

Lemma commit_positive (env : Env) (s h : State) (c : Z) :
  countdown h = Some c -> 0 < c ->
  commit env s h = h \/
  commit env s h =
    (cleanup h |> setTimeout |> setEffectTimer (Some (nextTimer h))).
Proof.
  intros Hc Hpos. rewrite commit_spec.
  destruct (depsChanged s h); [right | now left].
  unfold countdownEffect.
  replace (countdown (cleanup h)) with (countdown h)
    by (rewrite cleanup_eq; reflexivity).
  replace (nextTimer (cleanup h)) with (nextTimer h)
    by (rewrite cleanup_eq; reflexivity).
  rewrite Hc. now replace (c <=? 0) with false by (symmetry; apply Z.leb_gt; lia).
Qed.

(** ** Alarm output *)

(** X4. Starting the alarm is idempotent: a second [startAlarm()] finds the
    audio context ref set and leaves everything as the first one left it, so
    it makes no second context, oscillator or wake-lock request. *)
Theorem startAlarm_idempotent (env : Env) (s : State) :
  startAlarm env (startAlarm env s) = startAlarm env s.
Proof.
  rewrite (startAlarm_eq env s).
  destruct (audioCtxRef s) eqn:E.
  - unfold startAlarm. now rewrite E.
  - unfold startAlarm at 1. reflexivity.
Qed.

(** ** stop *)

Lemma stop_fields (env : Env) (s : State) :
  isArmed (stop env s) = isArmed s /\
  isTriggered (stop env s) = false /\
  countdown (stop env s) = countdown s /\
  volume (stop env s) = volume s /\
  timers (stop env s) = timers s /\
  audioCtxRef (stop env s) = None /\
  oscillatorRef (stop env s) = None /\
  gainRef (stop env s) = None /\
  oscillators (stop env s) =
    match oscillatorRef s with
    | Some h => remove Nat.eq_dec h (oscillators s)
    | None => oscillators s
    end /\
  logs (stop env s) =
    mkLogEntry (randomUUID env (List.length (logs s))) cancelled
      "Alarm stopped" (toISOString env (List.length (logs s))) :: logs s.
Proof.
  unfold stop, stopAlarm. rewrite releaseWakeLock_eq, stopOscillator_eq.
  now repeat split.
Qed.

(** X5. [stop()] in a state a run reaches, from any first render, with the
    alarm triggered turns the alarm output off (no oscillator sounds, the
    audio refs are null), clears the triggered flag and puts one
    [cancelled] entry on the log. It leaves the armed flag and the countdown
    as they were: without a countdown the mode after [stop()] is Armed with
    the armed flag set and Disarmed with it clear. Where the first render
    did not restore the triggered flag set with the armed flag clear, the
    armed flag is set, so the mode is Armed, not Disarmed. *)
Theorem stop_returns_to_armed (env : Env) (a t : bool) (v : Q)
    (l : list LogEntry) (c : option Coords) (es : list Event) (s : State) :
  s = run env (firstRender a t v l c) es ->
  isTriggered s = true ->
  isTriggered (step env s (Call Stop)) = false /\
  isArmed (step env s (Call Stop)) = isArmed s /\
  countdown (step env s (Call Stop)) = countdown s /\
  oscillators (step env s (Call Stop)) = [] /\
  audioCtxRef (step env s (Call Stop)) = None /\
  oscillatorRef (step env s (Call Stop)) = None /\
  logs (step env s (Call Stop)) =
    mkLogEntry (randomUUID env (List.length (logs s))) cancelled
      "Alarm stopped" (toISOString env (List.length (logs s))) :: logs s /\
  (countdown s = None ->
     mode (step env s (Call Stop)) = if isArmed s then Armed else Disarmed) /\
  ((t = true -> a = true) ->
     isArmed s = true /\
     (countdown s = None -> mode (step env s (Call Stop)) = Armed)).
Proof.
  intros Hs Et.
  assert (I : Inv s) by (subst s; apply run_Inv, firstRender_Inv).
  assert (X : (t = true -> a = true) -> isArmed s = true).
  { intro Hc. subst s. now apply (run_triggeredArmed env a t v l c es Hc). }
  clear Hs. destruct I as [_ [A1 A2] _ _].
  destruct (stop_fields env s)
    as (F1 & F2 & F3 & F4 & F5 & F6 & F7 & F8 & F9 & F10).
  unfold step. simpl handle. rewrite (commit_unchanged env s _ F3 F4).
  unfold mode. rewrite F1, F2, F3, F6, F7, F9, F10.
  split; [reflexivity |]. split; [reflexivity |]. split; [reflexivity |].
  split; [rewrite A2; destruct (oscillatorRef s); auto using remove_single |].
  split; [reflexivity |]. split; [reflexivity |]. split; [reflexivity |].
  split; [now intros -> |].
  intro Hc. rewrite (X Hc). split; [reflexivity | now intros ->].
Qed.

Lemma stop_returns_to_armed_witness :
  mode (step env0 (run env0 init [KeySpace; TimerFire 0; TimerFire 1;
                                  TimerFire 2]) (Call Stop)) = Armed /\
  mode (step env0 (firstRender false true (8 # 10) [] None) (Call Stop))
    = Disarmed.
Proof.
  split.
  - destruct (stop_returns_to_armed env0 false false (8 # 10) [] None
                [KeySpace; TimerFire 0; TimerFire 1; TimerFire 2]
                (run env0 init [KeySpace; TimerFire 0; TimerFire 1;
                                TimerFire 2]))
      as (_ & _ & _ & _ & _ & _ & _ & _ & H).
    + reflexivity.
    + vm_compute. reflexivity.
    + destruct H as [_ H]; [discriminate |]. apply H. vm_compute. reflexivity.
  - destruct (stop_returns_to_armed env0 false true (8 # 10) [] None []
                (firstRender false true (8 # 10) [] None))
      as (_ & _ & _ & _ & _ & _ & _ & H & _).
    + reflexivity.
    + reflexivity.
    + now rewrite H.
Defined.

(** Where the countdown the handler leaves is null or positive, the
    re-render touches the timeouts only. *)
Lemma commit_quiet (env : Env) (s h : State) :
  (forall c, countdown h = Some c -> 0 < c) ->
  isArmed (commit env s h) = isArmed h /\
  isTriggered (commit env s h) = isTriggered h /\
  countdown (commit env s h) = countdown h /\
  volume (commit env s h) = volume h /\
  logs (commit env s h) = logs h /\
  coords (commit env s h) = coords h /\
  audioCtxRef (commit env s h) = audioCtxRef h /\
  oscillatorRef (commit env s h) = oscillatorRef h /\
  gainRef (commit env s h) = gainRef h /\
  oscillators (commit env s h) = oscillators h /\
  nextAudio (commit env s h) = nextAudio h /\
  geoPending (commit env s h) = geoPending h.
Proof.
  intro Hpos. destruct (countdown h) as [c|] eqn:Hc.
  - destruct (commit_positive env s h c Hc (Hpos c eq_refl)) as [-> | ->].
    + now rewrite Hc.
    + rewrite cleanup_eq. unfold setTimeout. simpl. now rewrite Hc.
  - destruct (commit_null env s h Hc) as [-> | ->].
    + now rewrite Hc.
    + rewrite cleanup_eq. simpl. now rewrite Hc.
Qed.

(** ** cancelCountdown *)

(** X6. [cancelCountdown()] in a state a run reaches whose mode is
    CountingDown takes the mode back to Armed: the countdown is null, no
    timeout is left pending, no audio context was made and no oscillator
    sounds, and one [cancelled] entry is put on the log. *)
Theorem cancel_returns_to_armed (env : Env) (s : State) :
  reachable env s ->
  mode s = CountingDown ->
  mode (step env s (Call CancelCountdown)) = Armed /\
  countdown (step env s (Call CancelCountdown)) = None /\
  timers (step env s (Call CancelCountdown)) = [] /\
  oscillators (step env s (Call CancelCountdown)) = [] /\
  nextAudio (step env s (Call CancelCountdown)) = nextAudio s /\
  logs (step env s (Call CancelCountdown)) =
    mkLogEntry (randomUUID env (List.length (logs s))) cancelled
      "Countdown cancelled" (toISOString env (List.length (logs s)))
    :: logs s.
Proof.
  intros Hr Hm. pose proof (reachable_Inv env s Hr) as I.
  pose proof (step_Inv env s (Call CancelCountdown) I) as [_ _ _ J].
  destruct I as [I1 [A1 A2] I3 _].
  unfold mode in Hm. destruct (isTriggered s) eqn:Et; [discriminate |].
  destruct (countdown s) as [c|] eqn:Ec;
    [| destruct (isArmed s); discriminate].
  assert (Ha : isArmed s = true) by (apply I1; discriminate).
  specialize (I3 eq_refl). rewrite I3 in A1. rewrite <- A1 in A2.
  unfold step in *. simpl handle in *.
  destruct (commit_quiet env s (cancelCountdown env s))
    as (C1 & C2 & C3 & _ & C5 & _ & _ & _ & _ & C10 & C11 & _);
    [discriminate |].
  rewrite C3 in J. simpl in J. destruct J as [_ J].
  unfold mode. rewrite C1, C2, C3, C5, C10, C11. simpl.
  rewrite Ha, Et, A2. repeat split; auto.
Qed.

Lemma cancel_returns_to_armed_witness :
  mode (step env0 (run env0 init [KeySpace; TimerFire 0]) (Call CancelCountdown))
    = Armed /\
  timers (step env0 (run env0 init [KeySpace; TimerFire 0])
            (Call CancelCountdown)) = [].
Proof.
  destruct (cancel_returns_to_armed env0 (run env0 init [KeySpace; TimerFire 0]))
    as (H1 & _ & H2 & _).
  - apply reachable_init.
  - vm_compute. reflexivity.
  - split; [exact H1 | exact H2].
Defined.

(** ** trigger *)

Lemma trigger_fields (env : Env) (s : State) :
  isArmed (trigger env s) = true /\
  isTriggered (trigger env s) = isTriggered s /\
  countdown (trigger env s) = Some 3 /\
  oscillators (trigger env s) = oscillators s /\
  nextAudio (trigger env s) = nextAudio s.
Proof.
  unfold trigger, arm. rewrite obtainLocation_eq.
  destruct (isArmed s) eqn:E; simpl; auto.
Qed.

(** X7. [trigger()] in any state leaves the armed flag set and the countdown
    at 3, and starts no alarm of its own: the triggered flag, the
    oscillators and the audio contexts are as they were. In a state a run
    reaches exactly one timeout is pending afterwards, and where the alarm
    was not triggered the mode is CountingDown. *)
Theorem trigger_starts_countdown (env : Env) (s : State) :
  (isArmed (step env s (Call Trigger)) = true /\
   countdown (step env s (Call Trigger)) = Some 3 /\
   isTriggered (step env s (Call Trigger)) = isTriggered s /\
   oscillators (step env s (Call Trigger)) = oscillators s /\
   nextAudio (step env s (Call Trigger)) = nextAudio s) /\
  (reachable env s ->
   (exists t, timers (step env s (Call Trigger)) = [t]) /\
   (isTriggered s = false -> mode (step env s (Call Trigger)) = CountingDown)).
Proof.
  destruct (trigger_fields env s) as (F1 & F2 & F3 & F4 & F5).
  destruct (commit_quiet env s (trigger env s))
    as (C1 & C2 & C3 & _ & _ & _ & _ & _ & _ & C10 & C11 & _).
  { intros c H. rewrite F3 in H. injection H as <-. lia. }
  unfold step. simpl handle.
  split; [now rewrite C1, C2, C3, C10, C11 |].
  intro Hr. pose proof (reachable_Inv env s Hr) as I.
  pose proof (step_Inv env s (Call Trigger) I) as [_ _ _ J].
  unfold step in J. simpl handle in J. rewrite C3, F3 in J.
  destruct J as [_ (t & _ & J)].
  split; [now exists t |].
  intro Et. unfold mode. now rewrite C2, C3, F2, F3, Et.
Qed.

Lemma trigger_starts_countdown_witness :
  (exists t, timers (step env0 (run env0 init [ClickToggle]) (Call Trigger))
             = [t]) /\
  mode (step env0 (run env0 init [ClickToggle]) (Call Trigger)) = CountingDown.
Proof.
  destruct (trigger_starts_countdown env0 (run env0 init [ClickToggle]))
    as (_ & H).
  destruct H as (H1 & H2).
  - apply reachable_init.
  - split; [exact H1 | apply H2; vm_compute; reflexivity].
Defined.

(** ** The Escape key *)

Lemma onEscape_fields (env : Env) (s : State) :
  isArmed (onEscape env s) = isArmed s /\
  isTriggered (onEscape env s) = false /\
  countdown (onEscape env s) = None.
Proof.
  unfold onEscape, stop, stopAlarm, cancelCountdown.
  destruct (countdown s) eqn:Ec, (isTriggered s) eqn:Et;
    rewrite ?releaseWakeLock_eq, ?stopOscillator_eq; simpl; auto.
Qed.

(** X8. Escape, in any state, leaves the page with the countdown null and
    the alarm not triggered, and does not touch the armed flag. In a state
    a run reaches no timeout is pending and no oscillator sounds afterwards,
    and the mode is Armed or Disarmed as the armed flag says. *)
Theorem escape_clears (env : Env) (s : State) :
  (countdown (step env s KeyEscape) = None /\
   isTriggered (step env s KeyEscape) = false /\
   isArmed (step env s KeyEscape) = isArmed s) /\
  (reachable env s ->
   timers (step env s KeyEscape) = [] /\
   oscillators (step env s KeyEscape) = [] /\
   mode (step env s KeyEscape) = if isArmed s then Armed else Disarmed).
Proof.
  destruct (onEscape_fields env s) as (F1 & F2 & F3).
  destruct (commit_quiet env s (onEscape env s))
    as (C1 & C2 & C3 & _); [rewrite F3; discriminate |].
  assert (G : countdown (step env s KeyEscape) = None /\
              isTriggered (step env s KeyEscape) = false /\
              isArmed (step env s KeyEscape) = isArmed s).
  { unfold step. simpl handle. now rewrite C1, C2, C3. }
  split; [exact G |]. destruct G as (G1 & G2 & G3).
  intro Hr.
  destruct (step_Inv env s KeyEscape (reachable_Inv env s Hr))
    as [_ [A1 A2] I3 I4].
  rewrite G1 in I4. destruct I4 as [_ I4].
  specialize (I3 G2). rewrite I3 in A1. rewrite <- A1 in A2.
  unfold mode. now rewrite G1, G2, G3.
Qed.

Lemma escape_clears_witness :
  timers (step env0 (run env0 init [KeySpace; TimerFire 0; TimerFire 1;
                                    TimerFire 2; KeySpace]) KeyEscape) = [] /\
  mode (step env0 (run env0 init [KeySpace; TimerFire 0; TimerFire 1;
                                  TimerFire 2; KeySpace]) KeyEscape) = Armed.
Proof.
  destruct (escape_clears env0
              (run env0 init [KeySpace; TimerFire 0; TimerFire 1; TimerFire 2;
                              KeySpace])) as (_ & H).
  destruct H as (H1 & _ & H2).
  - apply reachable_init.
  - split; [exact H1 | exact H2].
Defined.

(** ** The countdown running out *)

Lemma firePending_Inv (env : Env) (s : State) :
  Inv s -> Inv (firePending env s).
Proof.
  intro I. unfold firePending. destruct (timers s); auto using step_Inv.
Qed.

Lemma firePending_counting (env : Env) (s : State) (c : Z) :
  Inv s -> isTriggered s = false -> countdown s = Some c ->
  (1 < c -> countdown (firePending env s) = Some (c - 1) /\
            isTriggered (firePending env s) = false) /\
  (c = 1 -> countdown (firePending env s) = None /\
            isTriggered (firePending env s) = true).
Proof.
  intros [_ _ _ I4] Et Hc. rewrite Hc in I4.
  destruct I4 as [Hrange (t0 & E1 & E2)].
  unfold firePending. rewrite E2.
  assert (Hh : handle env (TimerFire t0) s =
               tick (setTimers [] s)).
  { simpl. rewrite E2. simpl. rewrite Nat.eqb_refl. simpl.
    destruct (Nat.eq_dec t0 t0); [reflexivity | contradiction]. }
  unfold step. rewrite Hh. unfold tick. simpl. rewrite Hc.
  set (h := setCountdown (Some (c - 1)) (setTimers [] s)).
  split; intro Hc'.
  - destruct (commit_quiet env s h) as (_ & C2 & C3 & _).
    { subst h. simpl. intros c0 H. injection H as <-. lia. }
    rewrite C2, C3. subst h. simpl. auto.
  - rewrite commit_spec. unfold depsChanged. subst h. simpl. rewrite Hc. simpl.
    replace (c =? c - 1) with false by (symmetry; apply Z.eqb_neq; lia).
    simpl. rewrite cleanup_eq. unfold countdownEffect. simpl.
    subst c. simpl. rewrite obtainLocation_eq, startAlarm_eq. simpl.
    destruct (audioCtxRef s); simpl; auto.
Qed.

(** X9. A countdown left alone runs out in as many ticks as it counts: from
    a state a run reaches whose mode is CountingDown with the countdown at
    [c], after [k < c] ticks of the pending timeout the mode is still
    CountingDown and the countdown is [c - k], and after [c] ticks the mode
    is Triggered. *)
Theorem countdown_runs_out (env : Env) (s : State) (c : Z) :
  reachable env s ->
  mode s = CountingDown ->
  countdown s = Some c ->
  (forall k, (k < Z.to_nat c)%nat ->
     mode (Nat.iter k (firePending env) s) = CountingDown /\
     countdown (Nat.iter k (firePending env) s) = Some (c - Z.of_nat k)) /\
  mode (Nat.iter (Z.to_nat c) (firePending env) s) = Triggered.
Proof.
  intros Hr Hm Hc. pose proof (reachable_Inv env s Hr) as I.
  assert (Et : isTriggered s = false).
  { unfold mode in Hm. now destruct (isTriggered s). }
  assert (Hpos : 0 < c).
  { destruct I as [_ _ _ I4]. rewrite Hc in I4. lia. }
  assert (G : forall k, (k < Z.to_nat c)%nat ->
            Inv (Nat.iter k (firePending env) s) /\
            isTriggered (Nat.iter k (firePending env) s) = false /\
            countdown (Nat.iter k (firePending env) s)
              = Some (c - Z.of_nat k)).
  { induction k as [|k IH]; intro Hk; simpl.
    - rewrite Z.sub_0_r. auto.
    - destruct IH as (J & Jt & Jc); [lia |].
      destruct (firePending_counting env _ _ J Jt Jc) as [(F1 & F2) _]; [lia |].
      split; [now apply firePending_Inv |].
      split; [exact F2 |]. rewrite F1. f_equal. lia. }
  split.
  - intros k Hk. destruct (G k Hk) as (_ & Jt & Jc).
    unfold mode. now rewrite Jt, Jc.
  - destruct (Z.to_nat c) as [|n] eqn:En; [lia |].
    destruct (G n) as (J & Jt & Jc); [lia |].
    simpl. replace (c - Z.of_nat n) with 1 in Jc by lia.
    destruct (firePending_counting env _ _ J Jt Jc) as [_ F].
    destruct F as [_ F]; [reflexivity |].
    unfold mode. now rewrite F.
Qed.

Lemma countdown_runs_out_witness :
  mode (Nat.iter (Z.to_nat 3) (firePending env0) (run env0 init [KeySpace]))
    = Triggered.
Proof.
  destruct (countdown_runs_out env0 (run env0 init [KeySpace]) 3) as (_ & H).
  - apply reachable_init.
  - vm_compute. reflexivity.
  - vm_compute. reflexivity.
  - exact H.
Defined.

(** ** Location results *)

(** X10. The success callback of a location request that was made stores
    the position it is given as the coordinate, uses up the request, and
    puts a [location] entry on the log whose message gives latitude and
    longitude with five decimals. *)
Theorem location_found (env : Env) (s : State) (c : Coords) (n : nat) :
  geoPending s = S n ->
  coords (step env s (GeoSuccess c)) = Some c /\
  geoPending (step env s (GeoSuccess c)) = n /\
  logs (step env s (GeoSuccess c)) =
    mkLogEntry (randomUUID env (List.length (logs s))) location
      ("Location updated (" ++ toFixed5 (lat c) ++ ", "
         ++ toFixed5 (lng c) ++ ")")
      (toISOString env (List.length (logs s))) :: logs s.
Proof.
  intro H. unfold step.
  assert (E : handle env (GeoSuccess c) s
              = locationFound env c (setGeoPending n s))
    by (simpl; now rewrite H).
  rewrite E, commit_unchanged by reflexivity.
  repeat split.
Qed.

Lemma location_found_witness :
  coords (step env0 (run env0 init [ClickToggle])
            (GeoSuccess (mkCoords (4071280 # 100000) (-7400597 # 100000))))
    = Some (mkCoords (4071280 # 100000) (-7400597 # 100000)) /\
  map message (logs (step env0 (run env0 init [ClickToggle])
            (GeoSuccess (mkCoords (4071280 # 100000) (-7400597 # 100000)))))
    = ["Location updated (40.71280, -74.00597)"; "System armed"].
Proof.
  destruct (location_found env0 (run env0 init [ClickToggle])
              (mkCoords (4071280 # 100000) (-7400597 # 100000)) 0)
    as (H1 & _ & H2).
  - vm_compute. reflexivity.
  - split; [exact H1 |]. rewrite H2. vm_compute. reflexivity.
Defined.

Lemma geo_handle (env : Env) (s : State) (e : Event) :
  e = GeoError \/ (exists c, e = GeoSuccess c) ->
  isArmed (handle env e s) = isArmed s /\
  isTriggered (handle env e s) = isTriggered s /\
  countdown (handle env e s) = countdown s /\
  volume (handle env e s) = volume s /\
  timers (handle env e s) = timers s /\
  oscillators (handle env e s) = oscillators s /\
  (geoPending s = 0%nat -> handle env e s = s).
Proof.
  intros [-> | [c ->]]; simpl; destruct (geoPending s);
    repeat split; intro H; discriminate H.
Qed.

(** X11. A location result, found or denied, whenever it arrives, leaves the
    lifecycle alone: armed and triggered flags, countdown, pending timeouts,
    sounding oscillators and so the mode are what they were. A result nobody
    asked for changes nothing at all. *)
Theorem location_result_keeps_lifecycle (env : Env) (s : State) (e : Event) :
  e = GeoError \/ (exists c, e = GeoSuccess c) ->
  mode (step env s e) = mode s /\
  isArmed (step env s e) = isArmed s /\
  isTriggered (step env s e) = isTriggered s /\
  countdown (step env s e) = countdown s /\
  timers (step env s e) = timers s /\
  oscillators (step env s e) = oscillators s /\
  (geoPending s = 0%nat -> step env s e = s).
Proof.
  intro He. destruct (geo_handle env s e He)
    as (F1 & F2 & F3 & F4 & F5 & F6 & F7).
  unfold step. rewrite (commit_unchanged env s _ F3 F4).
  unfold mode. rewrite F1, F2, F3. repeat split; auto.
Qed.

Lemma location_result_keeps_lifecycle_witness :
  mode (step env0 (run env0 init [KeySpace; ClickToggle]) GeoError) = Disarmed.
Proof.
  destruct (location_result_keeps_lifecycle env0
              (run env0 init [KeySpace; ClickToggle]) GeoError) as (H & _).
  - now left.
  - rewrite H. vm_compute. reflexivity.
Defined.

Lemma handle_coords (env : Env) (s : State) (e : Event) :
  coords (handle env e s) = coords s \/
  exists c, e = GeoSuccess c /\ coords (handle env e s) = Some c.
Proof.
  destruct e as [[]| | | | | | | | | | | | |]; simpl; expose.
  all: repeat match goal with
       | |- context [if ?b then _ else _] => destruct b
       | |- context [match ?x with _ => _ end] => destruct x
       end.
  all: simpl; eauto.
Qed.

(** X12. The stored coordinate is written by the success callback of a
    location request and by nothing else, and is never cleared: any other
    event leaves it as it is, and once a coordinate is stored one is stored
    after every run, disarming included. *)
Theorem coords_never_cleared (env : Env) (s : State) :
  (forall e, (forall c, e <> GeoSuccess c) ->
             coords (step env s e) = coords s) /\
  (forall es, coords s <> None -> coords (run env s es) <> None).
Proof.
  assert (G : forall s e, coords (step env s e) = coords s \/
                          exists c, e = GeoSuccess c /\
                                    coords (step env s e) = Some c).
  { intros s0 e. unfold step.
    destruct (commit_hooks env s0 (handle env e s0)) as (_ & _ & -> & _).
    apply handle_coords. }
  split.
  - intros e He. destruct (G s e) as [H | (c & -> & _)]; [exact H |].
    now elim (He c).
  - intro es. revert s. induction es as [|e es IH]; intros s H; simpl; auto.
    apply IH. destruct (G s e) as [-> | (c & _ & ->)]; [exact H | discriminate].
Qed.

Lemma coords_never_cleared_witness :
  coords (run env0 (step env0 (run env0 init [ClickToggle])
                      (GeoSuccess (mkCoords 1 2)))
            [ClickToggle; KeySpace; KeyEscape; ClickToggle]) <> None.
Proof.
  apply (proj2 (coords_never_cleared env0
                  (step env0 (run env0 init [ClickToggle])
                     (GeoSuccess (mkCoords 1 2))))).
  vm_compute. discriminate.
Defined.

(** ** The volume *)

Lemma handle_timers (env : Env) (s : State) (e : Event) :
  (forall t, In t (timers (handle env e s)) -> In t (timers s)) /\
  nextTimer (handle env e s) = nextTimer s.
Proof.
  destruct e as [[]| | | | | | | | | | | | |]; simpl; expose.
  all: repeat match goal with
       | |- context [if ?b then _ else _] => destruct b
       | |- context [match ?x with _ => _ end] => destruct x
       end.
  all: simpl; split; auto.
  all: intros t0 H; now apply in_remove in H.
Qed.

Lemma commit_fresh (env : Env) (s h : State) :
  (forall t, In t (timers h) -> (t < nextTimer h)%nat) ->
  forall t, In t (timers (commit env s h)) ->
            (t < nextTimer (commit env s h))%nat.
Proof.
  intro H. rewrite commit_spec. destruct (depsChanged s h); [| exact H].
  assert (Hk : forall t, In t (timers (cleanup h)) ->
                         (t < nextTimer (cleanup h))%nat).
  { rewrite cleanup_eq. simpl. intros t Ht. apply H.
    destruct (effectTimer h); [now apply in_remove in Ht | exact Ht]. }
  revert Hk. generalize (cleanup h) as k. intros k Hk.
  destruct (countdownEffect_cases env k)
    as [[_ ->] | [(c & _ & _ & ->) | (c & _ & _ & ->)]]; auto.
  - set (y := setCountdown None (setIsTriggered true k)).
    destruct (startAlarm_hooks env y) as (_ & _ & _ & _ & _ & _ & _ & a & a').
    destruct (obtainLocation_hooks env (startAlarm env y))
      as (_ & _ & _ & _ & _ & _ & _ & b & b').
    rewrite b, b', a, a'. exact Hk.
  - unfold setTimeout. simpl. intros t [<- | Ht]; [lia |].
    specialize (Hk t Ht). lia.
Qed.

Lemma timers_fresh (env : Env) (s : State) :
  reachable env s -> forall t, In t (timers s) -> (t < nextTimer s)%nat.
Proof.
  revert s.
  apply (reachable_ind env
           (fun s => forall t, In t (timers s) -> (t < nextTimer s)%nat)).
  - intros _ _ _ _ _ t [].
  - intros s e _ H. apply commit_fresh.
    destruct (handle_timers env s e) as [H1 H2].
    intros t Ht. rewrite H2. auto.
Qed.



(** X14. Moving the volume slider to another value while the countdown runs
    restarts the running second: the countdown effect is run again, the
    timeout that was pending is cleared and will not fire, a new one is
    pending in its place, and the countdown keeps its value. *)
Theorem volume_change_restarts_timeout (env : Env) (s : State) (c : Z) (v : Q) :
  reachable env s ->
  countdown s = Some c ->
  Qeq_bool (volume s) v = false ->
  countdown (step env s (ChangeVolume v)) = Some c /\
  timers (step env s (ChangeVolume v)) = [nextTimer s] /\
  (forall t, In t (timers s) ->
     ~ In t (timers (step env s (ChangeVolume v))) /\
     step env (step env s (ChangeVolume v)) (TimerFire t)
       = step env s (ChangeVolume v)).
Proof.
  intros Hr Hc Hv. pose proof (timers_fresh env s Hr) as Hf.
  destruct (reachable_Inv env s Hr) as [_ _ _ I4].
  rewrite Hc in I4. destruct I4 as [Hrange (t0 & E1 & E2)].
  assert (E : step env s (ChangeVolume v) =
              (cleanup (setVolume v s) |> setTimeout
                 |> setEffectTimer (Some (nextTimer s)))).
  { unfold step. simpl handle. rewrite commit_spec.
    unfold depsChanged. simpl. rewrite Hv, orb_true_r.
    unfold countdownEffect. rewrite cleanup_eq. simpl. rewrite Hc.
    now replace (c <=? 0) with false by (symmetry; apply Z.leb_gt; lia). }
  assert (T : timers (step env s (ChangeVolume v)) = [nextTimer s]).
  { rewrite E, cleanup_eq. unfold setTimeout. simpl.
    now rewrite E1, E2, remove_single. }
  split; [rewrite E, cleanup_eq; exact Hc |].
  split; [exact T |].
  intros t Ht. specialize (Hf t Ht).
  assert (N : existsb (Nat.eqb t) (timers (step env s (ChangeVolume v)))
              = false).
  { rewrite T. simpl. rewrite orb_false_r. apply Nat.eqb_neq. lia. }
  split.
  - rewrite T. intros [H | []]. lia.
  - unfold step at 1. simpl handle. rewrite N.
    now rewrite commit_spec, depsChanged_same.
Qed.

Lemma volume_change_restarts_timeout_witness :
  timers (step env0 (run env0 init [KeySpace]) (ChangeVolume (1 # 2)))
    = [1%nat] /\
  step env0 (step env0 (run env0 init [KeySpace]) (ChangeVolume (1 # 2)))
    (TimerFire 0)
    = step env0 (run env0 init [KeySpace]) (ChangeVolume (1 # 2)).
Proof.
  destruct (volume_change_restarts_timeout env0 (run env0 init [KeySpace])
              3 (1 # 2)) as (_ & H1 & H2).
  - apply reachable_init.
  - vm_compute. reflexivity.
  - vm_compute. reflexivity.
  - split; [exact H1 |]. apply (H2 0%nat). vm_compute. auto.
Defined.

(** ** The wake lock *)

Lemma handle_noWakeLock (env : Env) (s : State) (e : Event) :
  noWakeLock s -> noWakeLock (handle env e s).
Proof.
  unfold noWakeLock. intros (W1 & W2 & W3).
  destruct e as [[]| | | | | | | | | | | | |]; simpl; expose.
  all: repeat (simpl; rewrite ?W1, ?W2, ?W3;
               match goal with
               | |- context [if ?b then _ else _] => destruct b
               | |- context [match ?x with _ => _ end] => destruct x
               end).
  all: simpl; rewrite ?W1, ?W2, ?W3; simpl; repeat split; auto.
Qed.

Lemma commit_noWakeLock (env : Env) (s h : State) :
  wakeLock env = false -> noWakeLock h -> noWakeLock (commit env s h).
Proof.
  unfold noWakeLock. intros Hw H. rewrite commit_spec.
  destruct (depsChanged s h); [| exact H].
  assert (Hk : wakeLockRef (cleanup h) = false /\
               wakeRequests (cleanup h) = 0%nat /\
               wakeReleases (cleanup h) = 0%nat)
    by (rewrite cleanup_eq; exact H).
  revert Hk. generalize (cleanup h) as k. intros k Hk.
  destruct (countdownEffect_cases env k)
    as [[_ ->] | [(c & _ & _ & ->) | (c & _ & _ & ->)]]; auto.
  rewrite obtainLocation_eq, startAlarm_eq. simpl. rewrite Hw.
  now destruct (audioCtxRef k).
Qed.

(** X15. In a browser without [navigator.wakeLock] the page never asks for
    a wake lock and never releases one: in every state a run reaches the
    wake-lock ref is null and no request and no release is under way. *)
Theorem no_wake_lock_without_support (env : Env) (s : State) :
  wakeLock env = false ->
  reachable env s ->
  wakeLockRef s = false /\ wakeRequests s = 0%nat /\ wakeReleases s = 0%nat.
Proof.
  intros Hw Hr. revert s Hr.
  apply (reachable_ind env noWakeLock); [now repeat split |].
  intros s e _ H. now apply commit_noWakeLock, handle_noWakeLock.
Qed.

Lemma no_wake_lock_without_support_witness :
  wakeRequests
    (run (mkEnv true false (randomUUID env0) (toISOString env0)) init
       [KeySpace; TimerFire 0; TimerFire 1; TimerFire 2; WakeGranted;
        Call Stop]) = 0%nat.
Proof.
  destruct (no_wake_lock_without_support
              (mkEnv true false (randomUUID env0) (toISOString env0))
              (run (mkEnv true false (randomUUID env0) (toISOString env0)) init
                 [KeySpace; TimerFire 0; TimerFire 1; TimerFire 2; WakeGranted;
                  Call Stop])) as (_ & H & _).
  - reflexivity.
  - apply reachable_init.
  - exact H.
Defined.

(** X16. A wake lock granted after the alarm was stopped stays held:
    [stop()] coming while the request is still under way finds the ref null
    and releases nothing, and the grant that arrives afterwards sets the
    ref, with the alarm not triggered and no release under way. *)
Theorem wake_lock_outlives_alarm (env : Env) (s : State) (n : nat) :
  wakeLockRef s = false ->
  wakeRequests s = S n ->
  wakeLockRef (step env (step env s (Call Stop)) WakeGranted) = true /\
  isTriggered (step env (step env s (Call Stop)) WakeGranted) = false /\
  wakeReleases (step env (step env s (Call Stop)) WakeGranted)
    = wakeReleases s /\
  audioCtxRef (step env (step env s (Call Stop)) WakeGranted) = None.
Proof.
  intros Hw Hn.
  destruct (stop_fields env s) as (_ & _ & F3 & F4 & _).
  assert (E1 : step env s (Call Stop) = stop env s)
    by (unfold step; simpl handle; now rewrite commit_unchanged).
  assert (G : wakeRequests (stop env s) = S n /\
              wakeReleases (stop env s) = wakeReleases s /\
              isTriggered (stop env s) = false /\
              audioCtxRef (stop env s) = None).
  { unfold stop, stopAlarm. rewrite releaseWakeLock_eq, stopOscillator_eq.
    simpl. now rewrite Hw, Hn. }
  destruct G as (G1 & G2 & G3 & G4).
  rewrite E1. clear E1 F3 F4. revert G1 G2 G3 G4.
  generalize (stop env s) as h. intros h G1 G2 G3 G4.
  unfold step, handle. rewrite G1.
  rewrite commit_unchanged by reflexivity. simpl. auto.
Qed.

Lemma wake_lock_outlives_alarm_witness :
  wakeLockRef
    (step env0 (step env0 (run env0 init [KeySpace; TimerFire 0; TimerFire 1;
                                          TimerFire 2]) (Call Stop))
       WakeGranted) = true.
Proof.
  destruct (wake_lock_outlives_alarm env0
              (run env0 init [KeySpace; TimerFire 0; TimerFire 1; TimerFire 2])
              0) as (H & _).
  - vm_compute. reflexivity.
  - vm_compute. reflexivity.
  - exact H.
Defined.

(** ** useLocalStorage *)

(** X17. The hook falls back on its initial value wherever the storage has
    nothing usable under the key: the key was never set, the item is the
    empty string, or the item does not parse. *)
Theorem useLocalStorage_fallback (T : Type) (parse : string -> option T)
    (st : Storage) (key : string) (initialValue : T) :
  (getItem st key = None ->
     useLocalStorageInit parse st key initialValue = initialValue) /\
  (getItem st key = Some "" ->
     useLocalStorageInit parse st key initialValue = initialValue) /\
  (forall item, getItem st key = Some item -> parse item = None ->
     useLocalStorageInit parse st key initialValue = initialValue).
Proof.
  unfold useLocalStorageInit. repeat split.
  - now intros ->.
  - now intros ->.
  - intros item -> Hp. rewrite Hp. now destruct (String.eqb item "").
Qed.

Lemma useLocalStorage_fallback_witness :
  useLocalStorageInit parseBool (fun _ => None) "armed" false = false /\
  useLocalStorageInit parseBool (setItem "armed" "" (fun _ => None))
    "armed" true = true /\
  useLocalStorageInit parseBool (setItem "armed" "yes" (fun _ => None))
    "armed" false = false.
Proof.
  destruct (useLocalStorage_fallback bool parseBool (fun _ => None)
              "armed" false) as (H1 & _).
  destruct (useLocalStorage_fallback bool parseBool
              (setItem "armed" "" (fun _ => None)) "armed" true)
    as (_ & H2 & _).
  destruct (useLocalStorage_fallback bool parseBool
              (setItem "armed" "yes" (fun _ => None)) "armed" false)
    as (_ & _ & H3).
  split; [apply H1; reflexivity |].
  split; [apply H2; reflexivity | apply (H3 "yes"); reflexivity].
Defined.

Lemma getItem_setItem (key value k : string) (st : Storage) :
  getItem (setItem key value st) k =
  if String.eqb k key then Some value else getItem st k.
Proof. reflexivity. Qed.

(** X18. What the effect of the hook wrote is what the hook starts from
    after a reload: for a value whose string is not empty and parses back to
    it, the initializer reading the storage the effect wrote returns the
    value, whatever the initial value; and a hook with another key reads
    what it read before. *)
Theorem useLocalStorage_round_trip (T : Type) (parse : string -> option T)
    (stringify : T -> string) (st : Storage) (key : string)
    (value initialValue : T) :
  parse (stringify value) = Some value ->
  stringify value <> "" ->
  useLocalStorageInit parse (useLocalStorageEffect stringify key value st)
    key initialValue = value /\
  (forall (U : Type) (parse' : string -> option U) (key' : string) (i : U),
     key' <> key ->
     useLocalStorageInit parse'
       (useLocalStorageEffect stringify key value st) key' i
     = useLocalStorageInit parse' st key' i).
Proof.
  intros Hp Hne. unfold useLocalStorageInit, useLocalStorageEffect. split.
  - rewrite getItem_setItem, String.eqb_refl.
    apply String.eqb_neq in Hne. now rewrite Hne, Hp.
  - intros U parse' key' i Hk. rewrite getItem_setItem.
    apply String.eqb_neq in Hk. now rewrite Hk.
Qed.

Lemma useLocalStorage_round_trip_witness :
  useLocalStorageInit parseBool
    (useLocalStorageEffect stringifyBool "triggered" true (fun _ => None))
    "triggered" false = true /\
  useLocalStorageInit parseBool
    (useLocalStorageEffect stringifyBool "triggered" true (fun _ => None))
    "armed" false = false.
Proof.
  destruct (useLocalStorage_round_trip bool parseBool stringifyBool
              (fun _ => None) "triggered" true false) as (H1 & H2).
  - reflexivity.
  - discriminate.
  - split; [exact H1 |]. rewrite (H2 bool parseBool "armed" false).
    + reflexivity.
    + discriminate.
Defined.

(** ** What an event writes to the log *)

Lemma handle_log_growth (env : Env) (s : State) (e : Event) :
  (List.length (logs s) <= List.length (logs (handle env e s))
   <= List.length (logs s) + 2)%nat /\
  (silent e = true -> logs (handle env e s) = logs s).
Proof.
  destruct e as [[]| | | | | | | | | | | | |]; simpl; expose.
  all: repeat match goal with
       | |- context [if ?b then _ else _] => destruct b
       | |- context [match ?x with _ => _ end] => destruct x
       end.
  all: simpl; split; try lia; try reflexivity; discriminate.
Qed.

(** X19. No event puts more than two entries on the log, and none takes one
    away. The timeouts, and with them the alarm going off, the volume
    slider, the Refresh Location button and the wake-lock callbacks put
    none. *)
Theorem log_growth (env : Env) (s : State) (e : Event) :
  (List.length (logs s) <= List.length (logs (step env s e))
   <= List.length (logs s) + 2)%nat /\
  (silent e = true -> logs (step env s e) = logs s).
Proof. rewrite step_logs_eq. apply handle_log_growth. Qed.

Lemma log_growth_witness :
  logs (step env0 (run env0 init [KeySpace; TimerFire 0; TimerFire 1])
          (TimerFire 2))
  = logs (run env0 init [KeySpace; TimerFire 0; TimerFire 1]).
Proof.
  apply (proj2 (log_growth env0
                  (run env0 init [KeySpace; TimerFire 0; TimerFire 1])
                  (TimerFire 2))).
  reflexivity.
Defined.

(** ** The buttons *)

(** X20. The round button, in a state a run reaches from any first render,
    does what its face says and nothing else: with a countdown running and
    the alarm not triggered it cancels the countdown and the mode is Armed;
    with the alarm triggered and no countdown it stops the alarm and the
    mode is Armed with the armed flag set, Disarmed with it clear; with
    neither it starts the countdown and the mode is CountingDown. It never
    restarts a countdown that runs. Where the first render did not restore
    the triggered flag set with the armed flag clear, stopping the alarm
    always leaves the mode Armed. *)
Theorem round_button_cycle (env : Env) (a t : bool) (v : Q)
    (l : list LogEntry) (c : option Coords) (es : list Event) (s : State) :
  s = run env (firstRender a t v l c) es ->
  (countdown s <> None -> isTriggered s = false ->
     mode (step env s ClickMain) = Armed) /\
  (countdown s = None -> isTriggered s = true ->
     mode (step env s ClickMain) = if isArmed s then Armed else Disarmed) /\
  ((t = true -> a = true) -> countdown s = None -> isTriggered s = true ->
     mode (step env s ClickMain) = Armed) /\
  (countdown s = None -> isTriggered s = false ->
     mode (step env s ClickMain) = CountingDown) /\
  (countdown s <> None -> countdown (step env s ClickMain) = None).
Proof.
  intro Hs.
  assert (I : Inv s) by (subst s; apply run_Inv, firstRender_Inv).
  assert (X : (t = true -> a = true) -> isTriggered s = true ->
              isArmed s = true).
  { intro Hc. subst s. apply (run_triggeredArmed env a t v l c es Hc). }
  clear Hs. destruct I as [I1 _ _ _].
  unfold step. simpl handle. unfold onMain, mode.
  destruct (countdown s) as [c0|] eqn:Ec.
  - destruct (commit_quiet env s (cancelCountdown env s))
      as (C1 & C2 & C3 & _); [discriminate |].
    rewrite C1, C2, C3. simpl.
    split; [| split; [discriminate |
              split; [discriminate | split; [discriminate | reflexivity]]]].
    intros _ Et. rewrite Et, I1; [reflexivity | discriminate].
  - destruct (stop_fields env s) as (F1 & F2 & F3 & F4 & _).
    split; [intro H; now elim H |].
    split; [intros _ Et; rewrite Et;
            now rewrite (commit_unchanged env s _ F3 F4), F1, F2, F3, Ec |].
    split; [intros Hc _ Et; rewrite Et;
            rewrite (commit_unchanged env s _ F3 F4), F1, F2, F3, Ec;
            now rewrite (X Hc Et) |].
    split; [| intro H; now elim H].
    intros _ Et. rewrite Et.
    destruct (trigger_fields env s) as (G1 & G2 & G3 & _).
    destruct (commit_quiet env s (trigger env s)) as (C1 & C2 & C3 & _).
    { intros c1 H. rewrite G3 in H. injection H as <-. lia. }
    now rewrite C2, C3, G2, G3, Et.
Qed.

Lemma round_button_cycle_witness :
  mode (step env0 init ClickMain) = CountingDown /\
  mode (step env0 (run env0 init [ClickMain]) ClickMain) = Armed /\
  mode (step env0 (run env0 init [ClickMain; TimerFire 0; TimerFire 1;
                                  TimerFire 2]) ClickMain) = Armed /\
  mode (step env0 (firstRender false true (8 # 10) [] None) ClickMain)
    = Disarmed.
Proof.
  destruct (round_button_cycle env0 false false (8 # 10) [] None [] init)
    as (_ & _ & _ & H1 & _); [reflexivity |].
  destruct (round_button_cycle env0 false false (8 # 10) [] None [ClickMain]
              (run env0 init [ClickMain])) as (H2 & _); [reflexivity |].
  destruct (round_button_cycle env0 false false (8 # 10) [] None
              [ClickMain; TimerFire 0; TimerFire 1; TimerFire 2]
              (run env0 init [ClickMain; TimerFire 0; TimerFire 1;
                              TimerFire 2])) as (_ & _ & H3 & _);
    [reflexivity |].
  destruct (round_button_cycle env0 false true (8 # 10) [] None []
              (firstRender false true (8 # 10) [] None))
    as (_ & H4 & _); [reflexivity |].
  split; [apply H1; reflexivity |].
  split; [apply H2; vm_compute; [discriminate | reflexivity] |].
  split; [apply H3; [discriminate | vm_compute; reflexivity ..] |].
  rewrite H4; reflexivity.
Defined.

(** X21. The Arm / Disarm button, in a state a run reaches from any first
    render: with the armed flag set it disarms and leaves the mode Disarmed,
    whatever was going on; with the armed flag clear it arms, and the mode
    is Armed unless the alarm is triggered, in which case the page stays in
    the alarm. Where the first render did not restore the triggered flag set
    with the armed flag clear, the button toggles between Disarmed and
    Armed. *)
Theorem toggle_button (env : Env) (a t : bool) (v : Q)
    (l : list LogEntry) (c : option Coords) (es : list Event) (s : State) :
  s = run env (firstRender a t v l c) es ->
  mode (step env s ClickToggle) =
    (if isArmed s then Disarmed
     else if isTriggered s then Triggered else Armed) /\
  ((t = true -> a = true) ->
   mode (step env s ClickToggle) = if isArmed s then Disarmed else Armed).
Proof.
  intro Hs.
  assert (I : Inv s) by (subst s; apply run_Inv, firstRender_Inv).
  assert (X : (t = true -> a = true) -> isTriggered s = true ->
              isArmed s = true).
  { intro Hc. subst s. apply (run_triggeredArmed env a t v l c es Hc). }
  clear Hs. destruct I as [I1 _ _ _].
  assert (G : mode (step env s ClickToggle) =
              (if isArmed s then Disarmed
               else if isTriggered s then Triggered else Armed)).
  { unfold step. simpl handle. unfold onToggle, mode.
    destruct (isArmed s) eqn:Ea.
    - destruct (disarm_hooks env s) as (F1 & F2 & F3).
      destruct (commit_quiet env s (disarm env s)) as (C1 & C2 & C3 & _);
        [rewrite F3; discriminate |].
      now rewrite C1, C2, C3, F1, F2, F3.
    - assert (Ec : countdown s = None).
      { destruct (countdown s); [| reflexivity].
        discriminate I1. discriminate. }
      assert (F : isArmed (arm env s) = true /\
                  isTriggered (arm env s) = isTriggered s /\
                  countdown (arm env s) = countdown s /\
                  volume (arm env s) = volume s)
        by (unfold arm; rewrite obtainLocation_eq; now repeat split).
      destruct F as (F1 & F2 & F3 & F4).
      rewrite (commit_unchanged env s _ F3 F4), F1, F2, F3, Ec.
      now destruct (isTriggered s). }
  split; [exact G |].
  intro Hc. rewrite G. destruct (isArmed s) eqn:Ea; [reflexivity |].
  destruct (isTriggered s) eqn:Et; [| reflexivity].
  specialize (X Hc eq_refl). discriminate X.
Qed.

Lemma toggle_button_witness :
  mode (step env0 (run env0 init [KeySpace; TimerFire 0]) ClickToggle)
    = Disarmed /\
  mode (step env0 (firstRender false true (8 # 10) [] None) ClickToggle)
    = Triggered.
Proof.
  destruct (toggle_button env0 false false (8 # 10) [] None
              [KeySpace; TimerFire 0]
              (run env0 init [KeySpace; TimerFire 0])) as (_ & H1);
    [reflexivity |].
  destruct (toggle_button env0 false true (8 # 10) [] None []
              (firstRender false true (8 # 10) [] None)) as (H2 & _);
    [reflexivity |].
  split.
  - rewrite H1; [vm_compute; reflexivity | discriminate].
  - rewrite H2. reflexivity.
Defined.

(** ** The delay before the alarm *)

Lemma nonfire_handle (env : Env) (s : State) (e : Event) :
  isTriggered s = false -> isFire e = false ->
  isTriggered (handle env e s) = false /\
  (countdown (handle env e s) = None \/
   countdown (handle env e s) = Some 3 \/
   countdown (handle env e s) = countdown s).
Proof.
  intros Et Hf.
  destruct e as [[]| | | | | | | | | | | | |]; try discriminate Hf; simpl.
  all: expose; rewrite ?Et.
  all: repeat match goal with
       | |- context [if ?b then _ else _] => destruct b eqn:?
       | |- context [match ?x with _ => _ end] => destruct x eqn:?
       end.
  all: simpl; rewrite ?Et; auto.
Qed.

Lemma fire_is_firePending (env : Env) (s : State) (t : nat) :
  Inv s ->
  step env s (TimerFire t) = s \/ step env s (TimerFire t) = firePending env s.
Proof.
  intros [_ _ _ I4]. unfold firePending.
  destruct (existsb (Nat.eqb t) (timers s)) eqn:E.
  - right. destruct (countdown s).
    + destruct I4 as [_ (t0 & _ & E2)]. rewrite E2 in *. simpl in E.
      rewrite orb_false_r in E. apply Nat.eqb_eq in E. now subst.
    + destruct I4 as [_ E2]. rewrite E2 in E. discriminate.
  - left. unfold step. simpl handle. rewrite E.
    now rewrite commit_spec, depsChanged_same.
Qed.

Lemma step_ticksToAlarm (env : Env) (s : State) (e : Event) :
  Inv s ->
  (ticksToAlarm s
   <= ticksToAlarm (step env s e) + (if isFire e then 1 else 0))%nat.
Proof.
  intro I. unfold ticksToAlarm at 1.
  destruct (isTriggered s) eqn:Et; [lia |].
  assert (Hs : forall c, countdown s = Some c -> 0 < c <= 3).
  { intros c Hc. destruct I as [_ _ _ I4]. now rewrite Hc in I4. }
  destruct (isFire e) eqn:Hf.
  - destruct e; try discriminate Hf.
    destruct (fire_is_firePending env s t I) as [-> | ->].
    + unfold ticksToAlarm. rewrite Et. lia.
    + destruct (countdown s) as [c|] eqn:Ec.
      * specialize (Hs c eq_refl).
        destruct (firePending_counting env s c I Et Ec) as [F1 F2].
        unfold ticksToAlarm.
        destruct (Z.eq_dec c 1) as [-> | Hn].
        -- destruct F2 as [_ ->]; [reflexivity |]. simpl. lia.
        -- destruct F1 as [-> ->]; [lia |]. lia.
      * unfold firePending. destruct I as [_ _ _ I4]. rewrite Ec in I4.
        destruct I4 as [_ ->]. unfold ticksToAlarm. rewrite Et, Ec. lia.
  - destruct (nonfire_handle env s e Et Hf) as [Ht Hc].
    destruct (commit_quiet env s (handle env e s)) as (_ & C2 & C3 & _).
    { intros c H. destruct Hc as [Hc | [Hc | Hc]]; rewrite Hc in H.
      - discriminate.
      - injection H as <-. lia.
      - now apply Hs. }
    unfold ticksToAlarm, step. rewrite C2, C3, Ht.
    destruct Hc as [-> | [-> | ->]].
    + destruct (countdown s) as [c|]; [specialize (Hs c eq_refl) |]; lia.
    + destruct (countdown s) as [c|]; [specialize (Hs c eq_refl) |];
        simpl; lia.
    + lia.
Qed.

(** X22. The alarm is never triggered without its delay. From a state a run
    reaches in which the alarm is not triggered, whatever the user does and
    whatever callbacks arrive, the alarm stays off and no oscillator sounds
    as long as fewer timeouts have elapsed than the countdown counts, three
    where no countdown runs; from the first render that is three one-second
    timeouts. *)
Theorem alarm_needs_ticks (env : Env) (s : State) (es : list Event) :
  reachable env s ->
  (countFires es < ticksToAlarm s)%nat ->
  isTriggered (run env s es) = false /\
  oscillators (run env s es) = [].
Proof.
  intros Hr Hlt. pose proof (reachable_Inv env s Hr) as I. clear Hr.
  assert (G : isTriggered (run env s es) = false /\ Inv (run env s es)).
  { revert s I Hlt. induction es as [|e es IH]; intros s I Hlt.
    - simpl. split; [| exact I]. unfold ticksToAlarm in Hlt.
      destruct (isTriggered s); [simpl in Hlt; lia | reflexivity].
    - simpl. apply IH; [now apply step_Inv |].
      pose proof (step_ticksToAlarm env s e I) as H.
      unfold countFires in *. simpl in Hlt.
      destruct (isFire e); simpl in Hlt; lia. }
  destruct G as [Et [_ [A1 A2] I3 _]]. split; [exact Et |].
  specialize (I3 Et). rewrite I3 in A1. now rewrite <- A1 in A2.
Qed.

Lemma alarm_needs_ticks_witness :
  isTriggered (run env0 init [KeySpace; TimerFire 0; KeySpace; TimerFire 1;
                              ClickToggle; ClickMain]) = false.
Proof.
  destruct (alarm_needs_ticks env0 init
              [KeySpace; TimerFire 0; KeySpace; TimerFire 1; ClickToggle;
               ClickMain]) as (H & _).
  - apply (reachable_init env0 []).
  - vm_compute. lia.
  - exact H.
Defined.
